(** * taller3/transformadores_red.py: cell and header cleaning, pipeline assembly

    A shallow embedding of [LimpiarComillas], [ConvertirObjectAString],
    [pipeline_red] and [crear_pipeline_completo], and the properties of the
    specification that are settled on it.

    Conventions of the embedding:
    - a Python [str] is the list of its Unicode code points ([pystr]);
    - a cell holds a missing marker (NaN, None, pd.NA), a number or a [str];
      a number is the exact rational its decimal text denotes, the rounding
      to binary64 is not modelled;
    - code that can raise returns a [result]. *)

From Stdlib Require Import String Ascii QArith DecimalNat.
From stdpp Require Import gmap list.

Open Scope N_scope.

(** ** Python strings *)

(** A Python string: the sequence of its code points. *)
Abbreviation pystr := (list N).

(** An ASCII literal as a Python string. *)
Definition py (s : string) : pystr :=
  N_of_ascii <$> list_ascii_of_string s.

Definition SPACE : N := 32.
Definition QUOTE : N := 39.
Definition COMMA : N := 44.
Definition PERIOD : N := 46.
Definition UNDERSCORE : N := 95.
Definition TAB : N := 9.

(** [ch in " '"], the character set both [strip] calls are given. *)
Definition in_strip_set (ch : N) : bool :=
  (ch =? SPACE) || (ch =? QUOTE).

Fixpoint lstrip (chars : N -> bool) (s : pystr) : pystr :=
  match s with
  | [] => []
  | ch :: rest => if chars ch then lstrip chars rest else s
  end.

Definition rstrip (chars : N -> bool) (s : pystr) : pystr :=
  rev (lstrip chars (rev s)).

(** [s.strip(chars)]: drops the leading and the trailing characters that
    belong to [chars]. *)
Definition strip (chars : N -> bool) (s : pystr) : pystr :=
  rstrip chars (lstrip chars s).

(** [val.strip(" '")] *)
Definition strip_quotes (s : pystr) : pystr := strip in_strip_set s.

(** [s.replace(" ", "")] *)
Definition remove_spaces (s : pystr) : pystr :=
  filter (fun ch => ch ≠ SPACE) s.

(** [s.replace(",", ".")] *)
Definition commas_to_periods (s : pystr) : pystr :=
  (fun ch => if ch =? COMMA then PERIOD else ch) <$> s.

(** [sub in s] for a one-character [sub]. *)
Definition contains (ch : N) (s : pystr) : bool :=
  existsb (N.eqb ch) s.

(** ** The pattern [[0-9\.,\s]+] *)

(** [[0-9]] *)
Definition is_digit (ch : N) : bool := (48 <=? ch) && (ch <=? 57).

(** [\s] of a [str] pattern: the Unicode white space characters. *)
Definition is_whitespace (ch : N) : bool :=
  ((9 <=? ch) && (ch <=? 13)) || ((28 <=? ch) && (ch <=? 32))
  || (ch =? 133) || (ch =? 160) || (ch =? 5760)
  || ((8192 <=? ch) && (ch <=? 8202))
  || (ch =? 8232) || (ch =? 8233) || (ch =? 8239) || (ch =? 8287)
  || (ch =? 12288).

(** The class [[0-9\.,\s]]. *)
Definition in_numeric_class (ch : N) : bool :=
  is_digit ch || (ch =? PERIOD) || (ch =? COMMA) || is_whitespace ch.

(** [re.fullmatch(r"[0-9\.,\s]+", v)] as a truth value: one character at
    least, every character in the class. *)
Definition fullmatch_numeric (v : pystr) : bool :=
  match v with
  | [] => false
  | _ :: _ => forallb in_numeric_class v
  end.


(** The commas and the periods of a string, in order. *)
Definition separators (s : pystr) : pystr :=
  filter (fun ch => ch = COMMA \/ ch = PERIOD) s.

(** ** Results of code that can raise *)

Inductive exn : Type :=
| ValueError
| KeyError
| ZeroDivisionError.

Inductive result (A : Type) : Type :=
| Ok (a : A)
| Raise (e : exn).
Arguments Ok {A} a.
Arguments Raise {A} e.

Definition bind {A B : Type} (r : result A) (k : A -> result B) : result B :=
  match r with
  | Ok a => k a
  | Raise e => Raise e
  end.

Notation "x <- r ;; k" := (bind r (fun x => k))
  (at level 100, r at next level, right associativity).

Fixpoint mapM {A B : Type} (f : A -> result B) (l : list A) : result (list B) :=
  match l with
  | [] => Ok []
  | a :: rest => b <- f a ;; bs <- mapM f rest ;; Ok (b :: bs)
  end.

(** ** Cells *)

Inductive cell : Type :=
| Missing
| Num (q : Q)
| Text (s : pystr).

(** ** [pd.to_numeric] on a string *)

Definition digit_value (ch : N) : Z := Z.of_N (ch - 48).

(** The characters skipped around the number: space and [\t\n\v\f\r]. *)
Definition is_ascii_space (ch : N) : bool :=
  (ch =? SPACE) || ((9 <=? ch) && (ch <=? 13)).

(** Reads the digits at the front of [s] into the numerator [num]; [scale]
    is multiplied by ten per digit when [frac] is set. Returns the numerator,
    the scale, the number of digits read and the rest of [s]. *)
Fixpoint read_digits (frac : bool) (s : pystr) (num : Z) (scale : positive)
    (count : nat) : Z * positive * nat * pystr :=
  match s with
  | ch :: rest =>
      if is_digit ch
      then read_digits frac rest (10 * num + digit_value ch)%Z
             (if frac then (10 * scale)%positive else scale) (S count)
      else (num, scale, count, s)
  | [] => (num, scale, count, [])
  end.

(** The decimal a string denotes: optional white space, digits, an optional
    period followed by digits, optional white space, and nothing else; one
    digit at least. This is the grammar of the number parser on the strings
    the cleaner hands over, which hold digits, periods, commas and white
    space only. *)
Definition parse_decimal (s : pystr) : option Q :=
  let s0 := lstrip is_ascii_space s in
  let '(n1, _, c1, s1) := read_digits false s0 0%Z 1%positive 0%nat in
  let '(n2, sc, c2, s2) :=
    match s1 with
    | ch :: rest =>
        if ch =? PERIOD then read_digits true rest n1 1%positive c1
        else (n1, 1%positive, c1, s1)
    | [] => (n1, 1%positive, c1, s1)
    end in
  match c2, lstrip is_ascii_space s2 with
  | S _, [] => Some (n2 # sc)
  | _, _ => None
  end.

(** The [errors] argument of [pd.to_numeric]. *)
Inductive errors_mode : Type :=
| ErrorsRaise
| ErrorsCoerce.

(** [pd.to_numeric(s, errors=...)] on a string: the number parsed, and on a
    parse failure NaN under ["coerce"], a [ValueError] under ["raise"]. *)
Definition to_numeric (s : pystr) (errors : errors_mode) : result cell :=
  match parse_decimal s with
  | Some q => Ok (Num q)
  | None =>
      match errors with
      | ErrorsCoerce => Ok Missing
      | ErrorsRaise => Raise ValueError
      end
  end.

(** ** [LimpiarComillas._clean_cell] *)

Definition _clean_cell (val : cell) (cast_numeric : bool) : result cell :=
  match val with
  | Text s =>
      let v := strip_quotes s in
      if fullmatch_numeric v then
        let v_num := remove_spaces v in
        if cast_numeric then
          let v_num :=
            if contains COMMA v_num && negb (contains PERIOD v_num)
            then commas_to_periods v_num else v_num in
          to_numeric v_num ErrorsCoerce
        else Ok (Text v_num)
      else Ok (Text v)
  | _ => Ok val
  end.

(** ** The header phase of [LimpiarComillas.transform] *)

Fixpoint uint_chars (d : Decimal.uint) : pystr :=
  match d with
  | Decimal.Nil => []
  | Decimal.D0 d => 48 :: uint_chars d
  | Decimal.D1 d => 49 :: uint_chars d
  | Decimal.D2 d => 50 :: uint_chars d
  | Decimal.D3 d => 51 :: uint_chars d
  | Decimal.D4 d => 52 :: uint_chars d
  | Decimal.D5 d => 53 :: uint_chars d
  | Decimal.D6 d => 54 :: uint_chars d
  | Decimal.D7 d => 55 :: uint_chars d
  | Decimal.D8 d => 56 :: uint_chars d
  | Decimal.D9 d => 57 :: uint_chars d
  end.

(** [f"{cnt}"] for a count. *)
Definition str_of_nat (n : nat) : pystr := uint_chars (Nat.to_uint n).

(** [f"{c}_{cnt}"] *)
Definition suffixed (c : pystr) (cnt : nat) : pystr :=
  c ++ UNDERSCORE :: str_of_nat cnt.

(** The loop over [cols_raw]; [seen] and [cols_clean] are its two
    accumulators, [seen.get(c, 0)] is [default 0 (seen !! c)]. *)
Fixpoint dedup_loop (cols_raw : list pystr) (seen : gmap pystr nat)
    (cols_clean : list pystr) : list pystr :=
  match cols_raw with
  | [] => cols_clean
  | c :: rest =>
      let cnt := default 0%nat (seen !! c) in
      dedup_loop rest (<[c := (cnt + 1)%nat]> seen)
        (cols_clean ++ [match cnt with O => c | S _ => suffixed c cnt end])
  end.

(** The new column names, from the old ones. *)
Definition clean_headers (columns : list pystr) : list pystr :=
  let cols_raw := strip_quotes <$> columns in
  dedup_loop cols_raw ∅ [].

(** The number of occurrences of [c] in [l]. *)
Definition occurrences (c : pystr) (l : list pystr) : nat :=
  length (filter (fun d => d = c) l).

(** The name given to [c] when it was met [cnt] times before. *)
Definition renamed (c : pystr) (cnt : nat) : pystr :=
  match cnt with
  | O => c
  | S _ => suffixed c cnt
  end.

(** ** Tables *)

(** The kind of a column: [number], [object], [string], or any other
    (boolean, date and the like). *)
Inductive dtype : Type :=
| DNumber
| DObject
| DString
| DOther.

Record column : Type := Column {
  col_name : pystr;
  col_dtype : dtype;
  col_cells : list cell
}.

(** A table: its columns in order. Columns are addressed by position; the
    source addresses them by name, which is the same thing as long as the
    names are distinct. *)
Abbreviation table := (list column).

Definition names (X : table) : list pystr := col_name <$> X.

(** [select_dtypes(include=["object", "string"])] *)
Definition is_object_or_string (d : dtype) : bool :=
  match d with
  | DObject | DString => true
  | _ => false
  end.

(** [select_dtypes(include=["number"])] *)
Definition is_number (d : dtype) : bool :=
  match d with
  | DNumber => true
  | _ => false
  end.

(** [X.columns = cols] *)
Definition set_names (cols : list pystr) (X : table) : table :=
  zip_with (fun c col => Column c (col_dtype col) (col_cells col)) cols X.

(** ** The two transformers and [pipeline_red] *)

Record LimpiarComillas : Type := { cast_numeric : bool }.

(** [LimpiarComillas()]: [cast_numeric] defaults to [True]. *)
Definition LimpiarComillas_default : LimpiarComillas :=
  {| cast_numeric := true |}.

#[global] Instance Q_eq_dec : EqDecision Q.
Proof. solve_decision. Defined.

#[global] Instance cell_eq_dec : EqDecision cell.
Proof. solve_decision. Defined.

#[global] Instance dtype_eq_dec : EqDecision dtype.
Proof. solve_decision. Defined.

(** ** An instance of the library functions, for the examples *)

(** The section below leaves open what [str] prints for a number, which
    kind a rebuilt column gets, how categories are ordered and what the
    scaler computes. The examples fix them: a number prints as a fraction
    does, a column without text is numeric, strings are ordered by code
    point, and the scaler has mean 0 and deviation 1. *)
Module Instance.

Definition str_of_Z (z : Z) : pystr :=
  match z with
  | Z0 => [48]
  | Zpos n => str_of_nat (Pos.to_nat n)
  | Zneg n => 45 :: str_of_nat (Pos.to_nat n)
  end.

Definition str_of_fraction (q : Q) : pystr :=
  match Qden q with
  | 1%positive => str_of_Z (Qnum q)
  | d => str_of_Z (Qnum q) ++ 47 :: str_of_nat (Pos.to_nat d)
  end.

Definition infer_number_or_object (cells : list cell) : dtype :=
  match cells with
  | [] => DObject
  | _ :: _ =>
      if forallb (fun c => match c with Text _ => false | _ => true end) cells
      then DNumber else DObject
  end.

Fixpoint pystr_leb (a b : pystr) : bool :=
  match a, b with
  | [], _ => true
  | _ :: _, [] => false
  | x :: a', y :: b' =>
      if x <? y then true else if y <? x then false else pystr_leb a' b'
  end.

Definition cell_order (a b : cell) : bool :=
  match a, b with
  | Num p, Num q => Qle_bool p q
  | Num _, _ => true
  | Text s, Text t => pystr_leb s t
  | Text _, Missing => true
  | Missing, Missing => true
  | _, _ => false
  end.

Definition unit_scaler_learn (cols : list (list cell)) : result unit := Ok tt.

Definition unit_scaler_apply (st : unit) (cols : list (list cell))
    : result (list (list (option Q))) :=
  Ok ((fun vals : list cell =>
         (fun c => match c with Num q => Some q | _ => None end) <$> vals)
      <$> cols).

(** The tables of the examples. *)
Definition numbers_x_x_x1 : table :=
  [Column (py "x") DNumber [Num 1]; Column (py "x") DNumber [Num 2];
   Column (py "x_1") DNumber [Num 3]].

Definition mixed_table : table :=
  [Column (py " 'k' ") DObject [Text (py "' 7 '"); Text (py " hello ")];
   Column (py "n") DNumber [Num 1; Num 2]].

Definition mixed_table_cleaned : table :=
  [Column (py "k") DObject [Num 7; Text (py "hello")];
   Column (py "n") DNumber [Num 1; Num 2]].

Definition fit_table : table :=
  [Column (py "n") DNumber [Num 1; Num 2; Num 3];
   Column (py "c") DObject [Text (py "a"); Text (py "b"); Text (py "a")]].


Definition empty_table : table :=
  [Column (py "n") DNumber []; Column (py "c") DObject []].

Definition raw_table : table :=
  [Column (py "'a'") DNumber [Num 1; Num 2];
   Column (py "b") DObject [Text (py "x"); Text (py "y")]].

Definition other_kind_table : table :=
  [Column (py "n") DNumber [Num 1]; Column (py "c") DString [Text (py "x")];
   Column (py "d") DOther [Missing]].

End Instance.

Section Pipeline.

(** What the table library and the number library compute and the source
    only calls: [str(x)] of a number, the kind given to a column rebuilt
    from cleaned cells, the order in which category values are sorted, and
    the statistics and the arithmetic of the scaler. The development holds
    for any choice of them. *)
Variable py_str : Q -> pystr.
Variable infer_dtype : list cell -> dtype.
Variable cell_leb : cell -> cell -> bool.
Variable scaler_state : Type.
Variable scaler_learn : list (list cell) -> result scaler_state.
Variable scaler_apply :
  scaler_state -> list (list cell) -> result (list (list (option Q))).

(** One value under [astype("string")]: a missing value stays missing, a
    string stays itself, a number becomes its text. *)
Definition astype_string (v : cell) : cell :=
  match v with
  | Num q => Text (py_str q)
  | _ => v
  end.

(** [ConvertirObjectAString.transform] *)
Definition ConvertirObjectAString_transform (X : table) : table :=
  (fun col =>
     if is_object_or_string (col_dtype col)
     then Column (col_name col) DString (astype_string <$> col_cells col)
     else col) <$> X.

(** The cell phase on one column: [applymap] of [_clean_cell] over the
    columns of kind [object] or [string]. *)
Definition clean_column (self : LimpiarComillas) (col : column)
    : result column :=
  if is_object_or_string (col_dtype col)
  then
    cells <- mapM (fun v => _clean_cell v (cast_numeric self)) (col_cells col) ;;
    Ok (Column (col_name col) (infer_dtype cells) cells)
  else Ok col.

(** [LimpiarComillas.transform] *)
Definition LimpiarComillas_transform (self : LimpiarComillas) (X : table)
    : result table :=
  let X := set_names (clean_headers (names X)) X in
  mapM (clean_column self) X.

(** [pipeline_red.transform]; [fit] does nothing in either step, so this is
    [pipeline_red.fit_transform] too. *)
Definition pipeline_red (X : table) : result table :=
  LimpiarComillas_transform LimpiarComillas_default
    (ConvertirObjectAString_transform X).

(** ** The preprocessing building blocks *)

(** The number of rows of a table. *)
Definition n_rows (X : table) : nat :=
  match X with
  | [] => 0%nat
  | col :: _ => length (col_cells col)
  end.


(** [X[name]]: the column of that name, a [KeyError] when there is none. *)
Definition get_column (X : table) (name : pystr) : result (list cell) :=
  match find (fun col => bool_decide (col_name col = name)) X with
  | Some col => Ok (col_cells col)
  | None => Raise KeyError
  end.

(** [X[names]] *)
Definition select_columns (X : table) (cols : list pystr)
    : result (list (list cell)) :=
  mapM (get_column X) cols.

(** The number of rows of the columns handed to a primitive. *)
Definition samples (cols : list (list cell)) : nat :=
  match cols with
  | [] => 0%nat
  | vals :: _ => length vals
  end.

(** The input check of the scaling and the encoding primitives of the
    library: an input of zero rows is refused with a [ValueError]. *)
Definition check_min_samples (cols : list (list cell)) : result unit :=
  match samples cols with
  | O => Raise ValueError
  | S _ => Ok tt
  end.

(** Modelled from the spec: the numeric standardization primitive. Fitting
    learns the statistics of each column, transforming applies them; the
    arithmetic is [scaler_learn] and [scaler_apply]. *)
Definition StandardScaler_fit (cols : list (list cell))
    : result scaler_state :=
  _ <- check_min_samples cols ;; scaler_learn cols.

Definition StandardScaler_transform (st : scaler_state)
    (cols : list (list cell)) : result (list (list (option Q))) :=
  _ <- check_min_samples cols ;; scaler_apply st cols.

(** The [handle_unknown] argument of the encoder. *)
Inductive unknown_policy : Type :=
| UnknownError
| UnknownIgnore.

Record OneHotEncoder : Type := {
  handle_unknown : unknown_policy;
  sparse_output : bool
}.

Fixpoint insert_sorted (v : cell) (l : list cell) : list cell :=
  match l with
  | [] => [v]
  | w :: rest => if cell_leb v w then v :: l else w :: insert_sorted v rest
  end.

(** The sorted set of the distinct values of a column. *)
Definition sorted_distinct (l : list cell) : list cell :=
  foldr insert_sorted [] (remove_dups l).

(** Modelled from the spec: fitting the one-hot-encoding primitive records,
    per column, the sorted set of the distinct values observed. *)
Definition OneHotEncoder_fit (cols : list (list cell))
    : result (list (list cell)) :=
  _ <- check_min_samples cols ;; Ok (sorted_distinct <$> cols).

(** The indicator columns of one column: one per category, 1 where the
    value is that category and 0 elsewhere. *)
Definition indicator_columns (cats : list cell) (vals : list cell)
    : list (list (option Q)) :=
  (fun c => (fun v => if decide (v = c) then Some 1%Q else Some 0%Q) <$> vals)
    <$> cats.

Definition encode_column (self : OneHotEncoder) (cats vals : list cell)
    : result (list (list (option Q))) :=
  match handle_unknown self with
  | UnknownError =>
      if forallb (fun v => bool_decide (v ∈ cats)) vals
      then Ok (indicator_columns cats vals)
      else Raise ValueError
  | UnknownIgnore => Ok (indicator_columns cats vals)
  end.

Fixpoint encode_columns (self : OneHotEncoder) (cats : list (list cell))
    (cols : list (list cell)) : result (list (list (option Q))) :=
  match cats, cols with
  | c :: cats', vals :: cols' =>
      b <- encode_column self c vals ;;
      bs <- encode_columns self cats' cols' ;;
      Ok (b ++ bs)
  | [], [] => Ok []
  | _, _ => Raise ValueError
  end.

(** Modelled from the spec: transforming with the one-hot-encoding
    primitive. A value that is no fit-time category raises under
    [handle_unknown="error"] and gives a row of zeros under ["ignore"]. *)
Definition OneHotEncoder_transform (self : OneHotEncoder)
    (cats : list (list cell)) (cols : list (list cell))
    : result (list (list (option Q))) :=
  _ <- check_min_samples cols ;; encode_columns self cats cols.

(** ** The column transformer and the complete pipeline *)

Record ColumnTransformer : Type := {
  num_columns : list pystr;
  cat : OneHotEncoder;
  cat_columns : list pystr;
  sparse_threshold : Q
}.

(** The output of one branch: its columns, and whether it is held sparse. *)
Record block : Type := Block {
  is_sparse : bool;
  block_cols : list (list (option Q))
}.

(** The feature matrix returned: dense or sparse, its rows counted and its
    columns in order. *)
Inductive feature_matrix : Type :=
| Dense (rows : nat) (cols : list (list (option Q)))
| Sparse (rows : nat) (cols : list (list (option Q))).

Definition block_size (rows : nat) (b : block) : nat :=
  (rows * length (block_cols b))%nat.

(** The stored entries of a branch output: the entries that are not zero of
    a sparse one, every entry of a dense one. *)
Definition block_nnz (rows : nat) (b : block) : nat :=
  if is_sparse b
  then length (filter (fun e => e ≠ Some 0%Q) (concat (block_cols b)))
  else block_size rows b.

Definition sum_nat (l : list nat) : nat := foldr Nat.add 0%nat l.

(** Modelled from the spec: whether the concatenation is returned sparse.
    It is when a branch is sparse and the overall density is below
    [sparse_threshold]; the density is a quotient, which raises on an output
    of no entry at all. *)
Definition decide_sparse_output (threshold : Q) (rows : nat) (Xs : list block)
    : result bool :=
  if existsb is_sparse Xs then
    let nnz := sum_nat (block_nnz rows <$> Xs) in
    let total := sum_nat (block_size rows <$> Xs) in
    match total with
    | O => Raise ZeroDivisionError
    | S _ =>
        let density := Z.of_nat nnz # Pos.of_nat total in
        Ok (negb (Qle_bool threshold density))
    end
  else Ok false.

(** Modelled from the spec: the branch outputs concatenated column-wise, a
    sparse branch being materialized when the result is dense. *)
Definition hstack (sparse_out : bool) (rows : nat) (Xs : list block)
    : feature_matrix :=
  let cols := concat (block_cols <$> Xs) in
  if sparse_out then Sparse rows cols else Dense rows cols.

(** What fitting learns: the scaler statistics, the categories, and the
    representation of the output. A branch given no column is left out. *)
Record fitted : Type := Fitted {
  scaler_ : option scaler_state;
  categories_ : option (list (list cell));
  sparse_output_ : bool
}.

Definition blocks_of (num catb : option block) : list block :=
  option_list num ++ option_list catb.

(** [ColumnTransformer.fit_transform] *)
Definition ColumnTransformer_fit_transform (self : ColumnTransformer)
    (X : table) : result (fitted * feature_matrix) :=
  let rows := n_rows X in
  num <- match num_columns self with
         | [] => Ok None
         | _ :: _ =>
             cols <- select_columns X (num_columns self) ;;
             st <- StandardScaler_fit cols ;;
             out <- StandardScaler_transform st cols ;;
             Ok (Some (st, Block false out))
         end ;;
  catb <- match cat_columns self with
          | [] => Ok None
          | _ :: _ =>
              cols <- select_columns X (cat_columns self) ;;
              cats <- OneHotEncoder_fit cols ;;
              out <- OneHotEncoder_transform (cat self) cats cols ;;
              Ok (Some (cats, Block (sparse_output (cat self)) out))
          end ;;
  let Xs := blocks_of (snd <$> num) (snd <$> catb) in
  sp <- decide_sparse_output (sparse_threshold self) rows Xs ;;
  Ok (Fitted (fst <$> num) (fst <$> catb) sp, hstack sp rows Xs).

(** [ColumnTransformer.transform] *)
Definition ColumnTransformer_transform (self : ColumnTransformer)
    (f : fitted) (X : table) : result feature_matrix :=
  let rows := n_rows X in
  num <- match scaler_ f with
         | None => Ok None
         | Some st =>
             cols <- select_columns X (num_columns self) ;;
             out <- StandardScaler_transform st cols ;;
             Ok (Some (Block false out))
         end ;;
  catb <- match categories_ f with
          | None => Ok None
          | Some cats =>
              cols <- select_columns X (cat_columns self) ;;
              out <- OneHotEncoder_transform (cat self) cats cols ;;
              Ok (Some (Block (sparse_output (cat self)) out))
          end ;;
  Ok (hstack (sparse_output_ f) rows (blocks_of num catb)).

Record Pipeline : Type := {
  limpieza : table -> result table;
  prepro : ColumnTransformer
}.

(** [crear_pipeline_completo] *)
Definition crear_pipeline_completo (X : table) : Pipeline :=
  let columnas_categoricas :=
    names (filter (fun col => is_object_or_string (col_dtype col)) X) in
  let columnas_numericas :=
    names (filter (fun col => is_number (col_dtype col)) X) in
  let preprocesador :=
    {| num_columns := columnas_numericas;
       cat := {| handle_unknown := UnknownIgnore; sparse_output := true |};
       cat_columns := columnas_categoricas;
       sparse_threshold := 0 |} in
  {| limpieza := pipeline_red; prepro := preprocesador |}.

(** [Pipeline.fit_transform]: the cleaning step, then the preprocessor. *)
Definition Pipeline_fit_transform (self : Pipeline) (X : table)
    : result (fitted * feature_matrix) :=
  Xc <- limpieza self X ;;
  ColumnTransformer_fit_transform (prepro self) Xc.

(** [Pipeline.fit] *)
Definition Pipeline_fit (self : Pipeline) (X : table) : result fitted :=
  r <- Pipeline_fit_transform self X ;; Ok (fst r).

(** [Pipeline.transform] of a fitted pipeline. *)
Definition Pipeline_transform (self : Pipeline) (f : fitted) (X : table)
    : result feature_matrix :=
  Xc <- limpieza self X ;;
  ColumnTransformer_transform (prepro self) f Xc.

(** * Properties *)

(** ** Stripping *)

Lemma lstrip_all chars s : forallb chars s = true -> lstrip chars s = [].
Proof.
  induction s as [|ch s IH]; simpl; [done|].
  intros [Hch Hs]%andb_prop. rewrite Hch. auto.
Qed.

Lemma lstrip_fixed chars s :
  lstrip chars s = s <-> s = [] \/ exists ch rest, s = ch :: rest /\ chars ch = false.
Proof.
  split.
  - destruct s as [|ch rest]; [by left|]. intros H. right. exists ch, rest.
    split; [done|]. simpl in H. destruct (chars ch) eqn:E; [|done].
    exfalso. assert (Hlen : forall t, (length (lstrip chars t) <= length t)%nat).
    { clear. induction t as [|c t IH]; simpl; [lia|].
      destruct (chars c); simpl; lia. }
    specialize (Hlen rest). rewrite H in Hlen. simpl in Hlen. lia.
  - intros [->|(ch & rest & -> & Hch)]; [done|]. simpl. by rewrite Hch.
Qed.

Lemma lstrip_idem chars s : lstrip chars (lstrip chars s) = lstrip chars s.
Proof.
  induction s as [|ch s IH]; simpl; [done|].
  destruct (chars ch) eqn:E; [done|]. simpl. by rewrite E.
Qed.

Lemma lstrip_app_stop chars s ch :
  chars ch = false ->
  exists t, lstrip chars (s ++ [ch]) = t ++ [ch].
Proof.
  intros Hch. induction s as [|c s IH]; simpl.
  - rewrite Hch. by exists [].
  - destruct (chars c); [done|]. by exists (c :: s).
Qed.

Lemma rstrip_fixed chars s :
  rstrip chars s = s <-> s = [] \/ exists init ch, s = init ++ [ch] /\ chars ch = false.
Proof.
  unfold rstrip. split.
  - intros H. assert (H' : lstrip chars (rev s) = rev s).
    { rewrite <- H at 2. by rewrite rev_involutive. }
    apply lstrip_fixed in H' as [H'|(ch & rest & H' & Hch)].
    + left. apply (f_equal (@rev N)) in H'. by rewrite rev_involutive in H'.
    + right. exists (rev rest), ch. split; [|done].
      apply (f_equal (@rev N)) in H'. by rewrite rev_involutive in H'.
  - intros [->|(init & ch & -> & Hch)]; [done|].
    rewrite rev_app_distr. simpl. rewrite Hch. simpl.
    by rewrite rev_involutive.
Qed.

Lemma rstrip_idem chars s : rstrip chars (rstrip chars s) = rstrip chars s.
Proof. unfold rstrip. by rewrite rev_involutive, lstrip_idem. Qed.

Lemma rstrip_keeps_head chars ch rest :
  chars ch = false -> exists t, rstrip chars (ch :: rest) = ch :: t.
Proof.
  intros Hch. unfold rstrip. simpl.
  destruct (lstrip_app_stop chars (rev rest) ch Hch) as [t ->].
  exists (rev t). by rewrite rev_app_distr.
Qed.

(** A stripped string is left alone by [strip]. *)
Lemma strip_fixed chars s :
  lstrip chars s = s -> rstrip chars s = s -> strip chars s = s.
Proof. unfold strip. by intros -> ->. Qed.

Lemma strip_lstrip chars s : lstrip chars (strip chars s) = strip chars s.
Proof.
  unfold strip. destruct (lstrip chars s) as [|ch rest] eqn:E; [done|].
  assert (Hch : chars ch = false).
  { pose proof (lstrip_idem chars s) as Hid. rewrite E in Hid.
    apply lstrip_fixed in Hid as [?|(c & r & [= <- <-] & ?)]; done. }
  destruct (rstrip_keeps_head chars ch rest Hch) as [t ->].
  simpl. by rewrite Hch.
Qed.

Lemma strip_rstrip chars s : rstrip chars (strip chars s) = strip chars s.
Proof. unfold strip. apply rstrip_idem. Qed.

(** [strip] is idempotent. *)
Lemma strip_idem chars s : strip chars (strip chars s) = strip chars s.
Proof. apply strip_fixed; [apply strip_lstrip | apply strip_rstrip]. Qed.

Lemma strip_all chars s : forallb chars s = true -> strip chars s = [].
Proof. intros H. unfold strip. by rewrite lstrip_all. Qed.

Lemma lstrip_decomp chars s :
  exists p, s = p ++ lstrip chars s /\ forallb chars p = true.
Proof.
  induction s as [|ch s (p & Hs & Hp)]; simpl; [by exists []|].
  destruct (chars ch) eqn:E.
  - exists (ch :: p). simpl. rewrite E, Hp. split; [by f_equal|done].
  - by exists [].
Qed.

Lemma rstrip_decomp chars s :
  exists q, s = rstrip chars s ++ q /\ forallb chars q = true.
Proof.
  unfold rstrip. destruct (lstrip_decomp chars (rev s)) as (p & Hs & Hp).
  exists (rev p). split.
  - rewrite <- rev_app_distr, <- Hs. by rewrite rev_involutive.
  - rewrite forallb_forall in *. intros x Hin. apply Hp. by apply in_rev.
Qed.

(** What [strip] takes away: a prefix and a suffix made of [chars]. *)
Lemma strip_decomp chars s :
  exists p q, s = p ++ strip chars s ++ q
              /\ forallb chars p = true /\ forallb chars q = true.
Proof.
  destruct (lstrip_decomp chars s) as (p & Hs & Hp).
  destruct (rstrip_decomp chars (lstrip chars s)) as (q & Ht & Hq).
  exists p, q. unfold strip. by rewrite <- Ht, <- Hs.
Qed.

(** ** The pattern and the space removal *)

Lemma fullmatch_numeric_spec v :
  fullmatch_numeric v = true <-> v <> [] /\ forallb in_numeric_class v = true.
Proof.
  unfold fullmatch_numeric. destruct v; [split; [done|by intros [? _]]|].
  split; [by intros ->|by intros [_ ->]].
Qed.

Lemma remove_spaces_no_space v : SPACE ∉ remove_spaces v.
Proof. unfold remove_spaces. rewrite list_elem_of_filter. by intros [? _]. Qed.

Lemma remove_spaces_id v : SPACE ∉ v -> remove_spaces v = v.
Proof.
  unfold remove_spaces. induction v as [|ch v IH]; [done|].
  intros [Hne Hv]%not_elem_of_cons.
  rewrite filter_cons_True by done. by rewrite IH.
Qed.

Lemma remove_spaces_idem v : remove_spaces (remove_spaces v) = remove_spaces v.
Proof. apply remove_spaces_id, remove_spaces_no_space. Qed.

Lemma remove_spaces_class v :
  forallb in_numeric_class v = true ->
  forallb in_numeric_class (remove_spaces v) = true.
Proof.
  rewrite !forallb_forall. intros H ch Hin. apply H.
  apply list_elem_of_In. apply list_elem_of_In in Hin.
  unfold remove_spaces in Hin. by apply list_elem_of_filter in Hin as [_ ?].
Qed.

(** Deleting the spaces and the quotes of the whole cell, or stripping it
    and deleting the spaces of what is left, is the same when the stripped
    cell holds no quote. *)
Lemma remove_spaces_strip_quotes s :
  QUOTE ∉ strip_quotes s ->
  remove_spaces (strip_quotes s)
  = filter (fun ch => ch <> SPACE /\ ch <> QUOTE) s.
Proof.
  intros Hq. unfold strip_quotes in *.
  destruct (strip_decomp in_strip_set s) as (p & q & Hs & Hp & Hq').
  assert (Hnil : forall l, forallb in_strip_set l = true ->
                   filter (fun ch => ch <> SPACE /\ ch <> QUOTE) l = []).
  { induction l as [|ch l IH]; [done|]. simpl.
    intros [Hch Hl]%andb_prop. rewrite filter_cons_False; [by apply IH|].
    unfold in_strip_set in Hch. intros [? ?].
    apply orb_prop in Hch as [?%N.eqb_eq|?%N.eqb_eq]; done. }
  rewrite Hs at 2. rewrite !filter_app, (Hnil p Hp), (Hnil q Hq'), app_nil_r.
  simpl. unfold remove_spaces. revert Hq.
  generalize (strip in_strip_set s). induction l as [|ch l IH]; [done|].
  intros [Hne Hl]%not_elem_of_cons. rewrite !filter_cons.
  repeat case_decide; try (by rewrite IH); exfalso; intuition congruence.
Qed.

Lemma fullmatch_no_quote v : fullmatch_numeric v = true -> QUOTE ∉ v.
Proof.
  intros [_ H]%fullmatch_numeric_spec Hin.
  rewrite forallb_forall in H. apply list_elem_of_In, H in Hin. done.
Qed.

Lemma contains_spec ch v : contains ch v = true <-> ch ∈ v.
Proof.
  unfold contains. rewrite existsb_exists. split.
  - intros (x & Hin & ->%N.eqb_eq). by apply list_elem_of_In.
  - intros Hin. exists ch. split; [by apply list_elem_of_In|apply N.eqb_refl].
Qed.


Lemma commas_to_periods_no_comma v : contains COMMA (commas_to_periods v) = false.
Proof.
  apply not_true_is_false. rewrite contains_spec. unfold commas_to_periods.
  intros (ch & Heq & _)%(list_elem_of_fmap (A:=N)).
  destruct (ch =? COMMA) eqn:E; [done|]. apply N.eqb_neq in E. done.
Qed.


Lemma to_numeric_coerce_ok w :
  to_numeric w ErrorsCoerce
  = Ok (match parse_decimal w with Some q => Num q | None => Missing end).
Proof. unfold to_numeric. by destruct (parse_decimal w). Qed.

(** ** The cell cleaner *)

Lemma clean_cell_total val flag : exists c, _clean_cell val flag = Ok c.
Proof.
  destruct val as [|q|s]; simpl; eauto.
  destruct (fullmatch_numeric _); eauto.
  destruct flag; eauto. rewrite to_numeric_coerce_ok. eauto.
Qed.




(** C10, as amended: a textual cell made of single-quote and space
    characters only (such as ["''"] or two spaces) is returned as the empty
    string, a text and neither missing nor a number, whatever the flag: its
    stripped form is empty and the pattern asks for one character. *)
Theorem clean_cell_quotes_and_spaces (s : pystr) (flag : bool) :
  Forall (fun ch => ch = QUOTE \/ ch = SPACE) s ->
  strip_quotes s = [] /\ fullmatch_numeric (strip_quotes s) = false
  /\ _clean_cell (Text s) flag = Ok (Text []).
Proof.
  intros Hs. assert (Hnil : strip_quotes s = []).
  { apply strip_all. apply forallb_forall. intros ch Hin.
    rewrite Forall_forall in Hs. apply list_elem_of_In, Hs in Hin.
    unfold in_strip_set. destruct Hin as [-> | ->]; done. }
  split; [done|]. split; [by rewrite Hnil|].
  simpl. by rewrite Hnil.
Qed.

(** ** The header phase *)

Lemma occurrences_snoc c d l :
  occurrences c (l ++ [d])
  = (occurrences c l + if decide (d = c) then 1 else 0)%nat.
Proof.
  unfold occurrences. rewrite filter_app, length_app. f_equal.
  rewrite filter_cons, filter_nil. by case_decide.
Qed.

(** The loop, with [seen] counting the names already gone through. *)
Lemma dedup_loop_spec rest : forall done seen acc,
  (forall c, default 0%nat (seen !! c) = occurrences c done) ->
  length (dedup_loop rest seen acc) = (length acc + length rest)%nat
  /\ (forall i, (i < length acc)%nat -> dedup_loop rest seen acc !! i = acc !! i)
  /\ (forall i c, rest !! i = Some c ->
        dedup_loop rest seen acc !! (length acc + i)%nat
        = Some (renamed c (occurrences c (done ++ take i rest)))).
Proof.
  induction rest as [|c rest IH]; intros done seen acc Hseen; simpl.
  - split; [lia|]. split; [done|]. intros i d. by rewrite lookup_nil.
  - set (cnt := default 0%nat (seen !! c)).
    set (acc' := acc ++ [match cnt with O => c | S _ => suffixed c cnt end]).
    assert (Hseen' : forall d, default 0%nat (<[c:=(cnt + 1)%nat]> seen !! d)
                               = occurrences d (done ++ [c])).
    { intros d. rewrite occurrences_snoc. case_decide as Hd.
      - subst d. rewrite lookup_insert_eq. simpl. unfold cnt. by rewrite Hseen.
      - rewrite lookup_insert_ne by done. rewrite Hseen. lia. }
    destruct (IH (done ++ [c]) _ acc' Hseen') as (Hlen & Hold & Hnew).
    assert (Hacc' : length acc' = S (length acc)).
    { unfold acc'. rewrite length_app. simpl. lia. }
    split; [rewrite Hlen, Hacc'; lia|]. split.
    + intros i Hi. rewrite Hold by lia. unfold acc'. by rewrite lookup_app_l.
    + intros [|i] d Hd; simpl in Hd.
      * injection Hd as <-. rewrite Nat.add_0_r, Hold by lia.
        unfold acc'. rewrite lookup_app_r by lia. rewrite Nat.sub_diag. simpl.
        rewrite app_nil_r. unfold cnt. rewrite Hseen. done.
      * replace (length acc + S i)%nat with (length acc' + i)%nat by lia.
        rewrite (Hnew i d Hd). simpl. by rewrite <- app_assoc.
Qed.

Lemma occurrences_nil c : occurrences c [] = 0%nat.
Proof. done. Qed.

Lemma clean_headers_length columns :
  length (clean_headers columns) = length columns.
Proof.
  unfold clean_headers.
  destruct (dedup_loop_spec (strip_quotes <$> columns) [] ∅ []) as (H & _).
  { intros c. by rewrite lookup_empty. }
  rewrite H. simpl. by rewrite length_fmap.
Qed.

Lemma clean_headers_lookup columns i c :
  (strip_quotes <$> columns) !! i = Some c ->
  clean_headers columns !! i
  = Some (renamed c (occurrences c (take i (strip_quotes <$> columns)))).
Proof.
  intros Hc. unfold clean_headers.
  destruct (dedup_loop_spec (strip_quotes <$> columns) [] ∅ []) as (_ & _ & H).
  { intros d. by rewrite lookup_empty. }
  apply (H i c Hc).
Qed.


Lemma uint_chars_digits d : Forall (fun ch => is_digit ch = true) (uint_chars d).
Proof. induction d; simpl; constructor; done. Qed.

Lemma str_of_nat_last n :
  exists init ch, str_of_nat n = init ++ [ch] /\ is_digit ch = true.
Proof.
  unfold str_of_nat.
  assert (Hne : uint_chars (Nat.to_uint n) <> []).
  { pose proof (DecimalFacts.unorm_nonnil (Nat.to_uint n)) as Hnn.
    rewrite <- DecimalNat.Unsigned.to_of, DecimalNat.Unsigned.of_to in Hnn.
    by destruct (Nat.to_uint n). }
  pose proof (uint_chars_digits (Nat.to_uint n)) as Hd.
  destruct (uint_chars (Nat.to_uint n)) as [|c l] using rev_ind; [done|].
  exists l, c. split; [done|].
  by apply Forall_app in Hd as [_ [? _]%Forall_cons].
Qed.

Lemma digit_not_stripped ch : is_digit ch = true -> in_strip_set ch = false.
Proof.
  unfold is_digit, in_strip_set, SPACE, QUOTE.
  intros [?%N.leb_le ?%N.leb_le]%andb_prop.
  apply orb_false_intro; apply N.eqb_neq; lia.
Qed.

(** A stripped name stays stripped when a count is appended to it. *)
Lemma strip_quotes_renamed c k :
  strip_quotes c = c -> strip_quotes (renamed c k) = renamed c k.
Proof.
  intros Hc. destruct k as [|k]; [done|]. simpl. unfold suffixed, strip_quotes.
  apply strip_fixed.
  - apply lstrip_fixed. right.
    assert (Hl : lstrip in_strip_set c = c).
    { rewrite <- Hc. apply strip_lstrip. }
    apply lstrip_fixed in Hl as [->|(ch & rest & -> & Hch)].
    + by exists UNDERSCORE, (str_of_nat (S k)).
    + by exists ch, (rest ++ UNDERSCORE :: str_of_nat (S k)).
  - apply rstrip_fixed. right.
    destruct (str_of_nat_last (S k)) as (init & ch & -> & Hd).
    exists (c ++ UNDERSCORE :: init), ch.
    split; [by rewrite <- app_assoc|by apply digit_not_stripped].
Qed.

(** Every name the header phase gives is a stripped one. *)
Lemma clean_headers_stripped columns :
  strip_quotes <$> clean_headers columns = clean_headers columns.
Proof.
  apply list_eq. intros i. rewrite list_lookup_fmap.
  destruct ((strip_quotes <$> columns) !! i) as [c|] eqn:E.
  - rewrite (clean_headers_lookup _ _ _ E). simpl. f_equal.
    apply strip_quotes_renamed.
    rewrite list_lookup_fmap in E.
    destruct (columns !! i); [|done]. injection E as <-.
    apply strip_idem.
  - apply lookup_ge_None in E. rewrite length_fmap in E.
    rewrite (proj2 (lookup_ge_None (clean_headers columns) i)); [done|].
    by rewrite clean_headers_length.
Qed.

Lemma occurrences_0 c l : c ∉ l -> occurrences c l = 0%nat.
Proof.
  unfold occurrences. induction l as [|d l IH]; [done|].
  intros [Hne Hl]%not_elem_of_cons.
  rewrite filter_cons_False by done. auto.
Qed.

(** Names that are distinct once stripped are only stripped. *)
Lemma clean_headers_NoDup columns :
  NoDup (strip_quotes <$> columns) ->
  clean_headers columns = strip_quotes <$> columns.
Proof.
  intros Hnd. apply list_eq. intros i.
  destruct ((strip_quotes <$> columns) !! i) as [c|] eqn:E.
  - rewrite (clean_headers_lookup _ _ _ E). f_equal.
    rewrite occurrences_0; [done|].
    intros (j & Hj & Hlt)%elem_of_take.
    pose proof (NoDup_lookup _ _ _ _ Hnd Hj E). lia.
  - apply lookup_ge_None in E. rewrite length_fmap in E.
    rewrite (proj2 (lookup_ge_None (clean_headers columns) i)); [done|].
    by rewrite clean_headers_length.
Qed.

(** The header phase leaves its own output alone when the names it gave are
    distinct. *)
Lemma clean_headers_idem columns :
  NoDup (clean_headers columns) ->
  clean_headers (clean_headers columns) = clean_headers columns.
Proof.
  intros Hnd. rewrite clean_headers_NoDup; rewrite clean_headers_stripped; done.
Qed.

(** ** Cleaning a cell twice *)

Lemma strip_quotes_remove_spaces v :
  strip_quotes v = v -> strip_quotes (remove_spaces v) = remove_spaces v.
Proof.
  intros Hv. unfold strip_quotes in *. apply strip_fixed.
  - assert (Hl : lstrip in_strip_set v = v) by (rewrite <- Hv; apply strip_lstrip).
    apply lstrip_fixed in Hl as [->|(ch & rest & -> & Hch)]; [done|].
    apply lstrip_fixed. right. exists ch, (remove_spaces rest). split; [|done].
    unfold remove_spaces. rewrite filter_cons_True; [done|].
    intros ->. done.
  - assert (Hr : rstrip in_strip_set v = v) by (rewrite <- Hv; apply strip_rstrip).
    apply rstrip_fixed in Hr as [->|(init & ch & -> & Hch)]; [done|].
    apply rstrip_fixed. right. exists (remove_spaces init), ch. split; [|done].
    unfold remove_spaces. rewrite filter_app, filter_cons_True; [done|].
    intros ->. done.
Qed.

Lemma fullmatch_remove_spaces v :
  strip_quotes v = v -> fullmatch_numeric v = true ->
  fullmatch_numeric (remove_spaces v) = true.
Proof.
  intros Hv [Hne Hcl]%fullmatch_numeric_spec. apply fullmatch_numeric_spec.
  split; [|by apply remove_spaces_class].
  assert (Hl : lstrip in_strip_set v = v).
  { unfold strip_quotes in Hv. rewrite <- Hv. apply strip_lstrip. }
  apply lstrip_fixed in Hl as [->|(ch & rest & -> & Hch)]; [done|].
  unfold remove_spaces. rewrite filter_cons_True; [done|]. intros ->. done.
Qed.

(** The cell cleaner gives back what it is given when that is one of its
    own results, whatever the flag. *)
Lemma clean_cell_idem val flag c :
  _clean_cell val flag = Ok c -> _clean_cell c flag = Ok c.
Proof.
  destruct val as [|q|s]; simpl; [by intros [= <-]..|].
  pose proof (strip_idem in_strip_set s) as Hid. fold (strip_quotes s) in Hid.
  fold (strip_quotes (strip_quotes s)) in Hid.
  destruct (fullmatch_numeric (strip_quotes s)) eqn:Hm.
  - destruct flag.
    + rewrite to_numeric_coerce_ok. intros [= <-]. by destruct (parse_decimal _).
    + intros [= <-]. simpl.
      rewrite (strip_quotes_remove_spaces _ Hid).
      rewrite (fullmatch_remove_spaces _ Hid Hm).
      by rewrite remove_spaces_idem.
  - intros [= <-]. simpl. by rewrite Hid, Hm.
Qed.

(** ** Results of a loop *)

Lemma mapM_Forall2 {A B} (f : A -> result B) l l' :
  mapM f l = Ok l' <-> Forall2 (fun a b => f a = Ok b) l l'.
Proof.
  revert l'. induction l as [|a l IH]; intros l'; simpl.
  - split; [intros [= <-]; constructor|by inversion 1].
  - split.
    + destruct (f a) as [b|] eqn:Ha; simpl; [|done].
      destruct (mapM f l) as [bs|] eqn:Hl; simpl; [|done].
      intros [= <-]. constructor; [done|by apply IH].
    + inversion 1 as [|? b ? bs Ha Hl]; subst. rewrite Ha. simpl.
      apply IH in Hl. by rewrite Hl.
Qed.

Lemma mapM_total {A B} (f : A -> result B) l :
  (forall a, a ∈ l -> exists b, f a = Ok b) -> exists l', mapM f l = Ok l'.
Proof.
  induction l as [|a l IH]; intros Hf; simpl; [by eexists|].
  destruct (Hf a) as [b ->]; [by left|].
  destruct IH as [bs ->]; [intros x Hx; apply Hf; by right|].
  simpl. by eexists.
Qed.

Lemma mapM_id {A} (f : A -> result A) l :
  (forall a, a ∈ l -> f a = Ok a) -> mapM f l = Ok l.
Proof.
  intros Hf. apply mapM_Forall2. apply Forall2_same_length_lookup.
  split; [done|]. intros i a b Ha Hb. simplify_eq.
  apply Hf. by eapply list_elem_of_lookup_2.
Qed.

(** ** Cleaning a table *)

Lemma names_ConvertirObjectAString X :
  names (ConvertirObjectAString_transform X) = names X.
Proof.
  unfold names, ConvertirObjectAString_transform. rewrite <- list_fmap_compose.
  apply list_fmap_ext. intros i col _. simpl. by destruct (is_object_or_string _).
Qed.

Lemma names_set_names cols (X : table) :
  length cols = length X -> names (set_names cols X) = cols.
Proof.
  revert X. induction cols as [|c cols IH]; intros [|col X]; simpl; try done.
  intros [= Hlen]. f_equal. by apply IH.
Qed.

Lemma set_names_id (X : table) : set_names (names X) X = X.
Proof. induction X as [|[n d cs] X IH]; simpl; [done|]. by f_equal. Qed.


(** What the cell phase does to one column. *)
Lemma clean_column_inv self col0 col :
  clean_column self col0 = Ok col ->
  (is_object_or_string (col_dtype col0) = false /\ col = col0)
  \/ (is_object_or_string (col_dtype col0) = true
      /\ exists cells,
           mapM (fun v => _clean_cell v (cast_numeric self)) (col_cells col0)
           = Ok cells
           /\ col = Column (col_name col0) (infer_dtype cells) cells).
Proof.
  unfold clean_column. destruct (is_object_or_string _).
  - destruct (mapM _ _) as [cells|] eqn:E; simpl; [|done].
    intros [= <-]. right. eauto.
  - intros [= <-]. by left.
Qed.

Lemma clean_column_name self col0 col :
  clean_column self col0 = Ok col -> col_name col = col_name col0.
Proof.
  intros [[_ ->]|(_ & cells & _ & ->)]%clean_column_inv; done.
Qed.

Lemma clean_column_total self col0 : exists col, clean_column self col0 = Ok col.
Proof.
  unfold clean_column. destruct (is_object_or_string _); [|by eexists].
  destruct (mapM_total (fun v => _clean_cell v (cast_numeric self))
              (col_cells col0)) as [cells ->].
  { intros v _. apply clean_cell_total. }
  simpl. by eexists.
Qed.

Lemma clean_columns_names self (X X1 : table) :
  mapM (clean_column self) X = Ok X1 -> names X1 = names X.
Proof.
  intros H%mapM_Forall2. induction H as [|col0 col X X1 Hc _ IH]; [done|].
  simpl. f_equal; [by eapply clean_column_name|done].
Qed.

Lemma LimpiarComillas_transform_names self X X1 :
  LimpiarComillas_transform self X = Ok X1 ->
  names X1 = clean_headers (names X).
Proof.
  unfold LimpiarComillas_transform. intros ->%clean_columns_names.
  apply names_set_names. rewrite clean_headers_length.
  unfold names. by rewrite length_fmap.
Qed.

Lemma pipeline_red_names X X1 :
  pipeline_red X = Ok X1 -> names X1 = clean_headers (names X).
Proof.
  unfold pipeline_red. intros ->%LimpiarComillas_transform_names.
  by rewrite names_ConvertirObjectAString.
Qed.

(** Cleaning returns a table, whatever the table given. *)
Lemma pipeline_red_total X : exists X1, pipeline_red X = Ok X1.
Proof.
  unfold pipeline_red, LimpiarComillas_transform.
  apply mapM_total. intros col _. apply clean_column_total.
Qed.




(** ** The encoder *)

Lemma bind_Ok {A B} (r : result A) (k : A -> result B) b :
  bind r k = Ok b <-> exists a, r = Ok a /\ k a = Ok b.
Proof.
  destruct r as [a|e]; simpl.
  - split; [eauto|]. by intros (? & [= <-] & ?).
  - split; [done|]. by intros (? & ? & _).
Qed.







(** ** The column transformer *)

Lemma fit_transform_inv self X f m :
  ColumnTransformer_fit_transform self X = Ok (f, m) ->
  exists num catb,
    match num_columns self with
    | [] => num = None
    | _ :: _ =>
        exists cols st out,
          select_columns X (num_columns self) = Ok cols
          /\ StandardScaler_fit cols = Ok st
          /\ StandardScaler_transform st cols = Ok out
          /\ num = Some (st, Block false out)
    end
    /\ match cat_columns self with
       | [] => catb = None
       | _ :: _ =>
           exists cols cats out,
             select_columns X (cat_columns self) = Ok cols
             /\ OneHotEncoder_fit cols = Ok cats
             /\ OneHotEncoder_transform (cat self) cats cols = Ok out
             /\ catb = Some (cats, Block (sparse_output (cat self)) out)
       end
    /\ decide_sparse_output (sparse_threshold self) (n_rows X)
         (blocks_of (snd <$> num) (snd <$> catb)) = Ok (sparse_output_ f)
    /\ scaler_ f = fst <$> num
    /\ categories_ f = fst <$> catb
    /\ m = hstack (sparse_output_ f) (n_rows X)
             (blocks_of (snd <$> num) (snd <$> catb)).
Proof.
  unfold ColumnTransformer_fit_transform.
  intros (num & Hnum & (catb & Hcat & (sp & Hsp & [= <- <-])%bind_Ok)%bind_Ok)%bind_Ok.
  exists num, catb. simpl. repeat split; try done.
  - destruct (num_columns self); [by injection Hnum as <-|].
    apply bind_Ok in Hnum as (cols & Hc & (st & Hst & (out & Hout & [= <-])%bind_Ok)%bind_Ok).
    by exists cols, st, out.
  - destruct (cat_columns self); [by injection Hcat as <-|].
    apply bind_Ok in Hcat as (cols & Hc & (cats & Hst & (out & Hout & [= <-])%bind_Ok)%bind_Ok).
    by exists cols, cats, out.
Qed.




Lemma decide_sparse_output_zero rows Xs sp :
  decide_sparse_output 0 rows Xs = Ok sp -> sp = false.
Proof.
  unfold decide_sparse_output. destruct (existsb is_sparse Xs); [|by intros [= <-]].
  destruct (sum_nat (block_size rows <$> Xs)) as [|total]; [done|].
  intros [= <-]. apply negb_false_iff, Qle_bool_iff.
  unfold Qle. simpl. lia.
Qed.

Lemma hstack_dense rows num catb :
  hstack false rows (blocks_of num catb)
  = Dense rows (from_option block_cols [] num ++ from_option block_cols [] catb).
Proof.
  unfold hstack, blocks_of. f_equal.
  destruct num, catb; simpl; by rewrite ?app_nil_r.
Qed.

Lemma transform_inv self f X m :
  ColumnTransformer_transform self f X = Ok m ->
  exists num_out cat_out,
    match scaler_ f with
    | None => num_out = []
    | Some st =>
        exists cols, select_columns X (num_columns self) = Ok cols
                     /\ StandardScaler_transform st cols = Ok num_out
    end
    /\ match categories_ f with
       | None => cat_out = []
       | Some cats =>
           exists cols,
             select_columns X (cat_columns self) = Ok cols
             /\ OneHotEncoder_transform (cat self) cats cols = Ok cat_out
       end
    /\ m = hstack (sparse_output_ f) (n_rows X)
             (blocks_of ((fun _ => Block false num_out) <$> scaler_ f)
                ((fun _ => Block (sparse_output (cat self)) cat_out)
                 <$> categories_ f)).
Proof.
  unfold ColumnTransformer_transform.
  intros (num & Hnum & (catb & Hcat & [= <-])%bind_Ok)%bind_Ok.
  exists (from_option block_cols [] num), (from_option block_cols [] catb).
  destruct (scaler_ f) as [st|], (categories_ f) as [cats|]; simpl.
  - apply bind_Ok in Hnum as (c1 & ? & (o1 & ? & [= <-])%bind_Ok).
    apply bind_Ok in Hcat as (c2 & ? & (o2 & ? & [= <-])%bind_Ok).
    simpl. eauto 10.
  - apply bind_Ok in Hnum as (c1 & ? & (o1 & ? & [= <-])%bind_Ok).
    injection Hcat as <-. simpl. eauto 10.
  - apply bind_Ok in Hcat as (c2 & ? & (o2 & ? & [= <-])%bind_Ok).
    injection Hnum as <-. simpl. eauto 10.
  - injection Hnum as <-. injection Hcat as <-. done.
Qed.

(** C8: the matrix a pipeline built by [crear_pipeline_completo] returns,
    from fitting and transforming as from transforming later, is dense: it
    is the columns of the scaling branch followed by the columns of the
    one-hot branch, and the sparse output of the encoder is not kept
    sparse. *)
Theorem pipeline_output_dense (X0 X : table) (f : fitted) (m : feature_matrix) :
  let p := crear_pipeline_completo X0 in
  Pipeline_fit_transform p X = Ok (f, m) ->
  sparse_output (cat (prepro p)) = true
  /\ sparse_output_ f = false
  /\ (exists Xc num_out cat_out,
        limpieza p X = Ok Xc
        /\ m = Dense (n_rows Xc) (num_out ++ cat_out)
        /\ match scaler_ f with
           | None => num_out = []
           | Some st =>
               exists cols,
                 select_columns Xc (num_columns (prepro p)) = Ok cols
                 /\ StandardScaler_transform st cols = Ok num_out
           end
        /\ match categories_ f with
           | None => cat_out = []
           | Some cats =>
               exists cols,
                 select_columns Xc (cat_columns (prepro p)) = Ok cols
                 /\ OneHotEncoder_transform (cat (prepro p)) cats cols
                    = Ok cat_out
           end)
  /\ forall Y m',
       Pipeline_transform p f Y = Ok m' ->
       exists Yc num_out cat_out,
         limpieza p Y = Ok Yc
         /\ m' = Dense (n_rows Yc) (num_out ++ cat_out)
         /\ match scaler_ f with
            | None => num_out = []
            | Some st =>
                exists cols,
                  select_columns Yc (num_columns (prepro p)) = Ok cols
                  /\ StandardScaler_transform st cols = Ok num_out
            end
         /\ match categories_ f with
            | None => cat_out = []
            | Some cats =>
                exists cols,
                  select_columns Yc (cat_columns (prepro p)) = Ok cols
                  /\ OneHotEncoder_transform (cat (prepro p)) cats cols
                     = Ok cat_out
            end.
Proof.
  intros p Hft. split; [done|].
  unfold Pipeline_fit_transform in Hft.
  apply bind_Ok in Hft as (Xc & HXc & Hft).
  apply fit_transform_inv in Hft
    as (num & catb & Hnum & Hcat & Hsp & Hsf & Hcf & ->).
  apply decide_sparse_output_zero in Hsp. split; [done|]. split.
  - exists Xc, (from_option block_cols [] (snd <$> num)),
      (from_option block_cols [] (snd <$> catb)).
    split; [done|]. split; [by rewrite Hsp, hstack_dense|].
    rewrite Hsf, Hcf. split.
    + destruct (num_columns (prepro p)); [by subst num|].
      destruct Hnum as (cols & st & out & ? & ? & ? & ->). simpl. eauto.
    + destruct (cat_columns (prepro p)); [by subst catb|].
      destruct Hcat as (cols & cats & out & ? & ? & ? & ->). simpl. eauto.
  - intros Y m' Ht. unfold Pipeline_transform in Ht.
    apply bind_Ok in Ht as (Yc & HYc & Ht).
    apply transform_inv in Ht as (num_out & cat_out & Hn & Hc & ->).
    exists Yc, num_out, cat_out. split; [done|].
    split; [|by split]. rewrite Hsp, hstack_dense. f_equal.
    destruct (scaler_ f), (categories_ f); simpl; by subst.
Qed.

(** ** Tables of zero rows *)






Lemma get_column_raise X name e : get_column X name = Raise e -> e = KeyError.
Proof. unfold get_column. destruct (find _ X); [done|]. by intros [= <-]. Qed.




(** * Further properties *)

(** ** The cell cleaner *)

(** X1: cleaning a cell and cleaning the result again is cleaning it once,
    whatever the cell and the flag. *)
Theorem clean_cell_twice (val : cell) (flag : bool) :
  (c <- _clean_cell val flag ;; _clean_cell c flag) = _clean_cell val flag.
Proof.
  destruct (clean_cell_total val flag) as [c Hc]. rewrite Hc. simpl.
  by apply clean_cell_idem in Hc.
Qed.

Lemma clean_cell_text_inv s flag t :
  _clean_cell (Text s) flag = Ok (Text t) ->
  (fullmatch_numeric (strip_quotes s) = false /\ t = strip_quotes s)
  \/ (fullmatch_numeric (strip_quotes s) = true /\ flag = false
      /\ t = remove_spaces (strip_quotes s)).
Proof.
  simpl. destruct (fullmatch_numeric (strip_quotes s)) eqn:Hm.
  - destruct flag.
    + rewrite to_numeric_coerce_ok. by destruct (parse_decimal _).
    + intros [= <-]. by right.
  - intros [= <-]. by left.
Qed.

Lemma strip_quotes_ends t :
  strip_quotes t = t ->
  forall ch, head t = Some ch \/ last t = Some ch -> in_strip_set ch = false.
Proof.
  intros Ht ch [Hh|Hl].
  - assert (H : lstrip in_strip_set t = t).
    { rewrite <- Ht. apply strip_lstrip. }
    apply lstrip_fixed in H as [->|(c & rest & -> & Hc)]; [done|].
    simpl in Hh. by injection Hh as <-.
  - assert (H : rstrip in_strip_set t = t).
    { rewrite <- Ht. apply strip_rstrip. }
    apply rstrip_fixed in H as [->|(init & c & -> & Hc)]; [done|].
    rewrite last_snoc in Hl. by injection Hl as <-.
Qed.

(** X2: a text that the cell cleaner returns for a textual cell is a
    stripped one: it neither begins nor ends with a space or a single
    quote. *)
Theorem clean_cell_text_is_stripped (s t : pystr) (flag : bool) :
  _clean_cell (Text s) flag = Ok (Text t) ->
  strip_quotes t = t
  /\ forall ch, head t = Some ch \/ last t = Some ch ->
                ch <> SPACE /\ ch <> QUOTE.
Proof.
  intros H. assert (Ht : strip_quotes t = t).
  { apply clean_cell_text_inv in H as [[_ ->]|(_ & _ & ->)].
    - apply strip_idem.
    - apply strip_quotes_remove_spaces, strip_idem. }
  split; [done|]. intros ch Hch.
  pose proof (strip_quotes_ends t Ht ch Hch) as Hs.
  unfold in_strip_set in Hs. apply orb_false_elim in Hs as [?%N.eqb_neq ?%N.eqb_neq].
  done.
Qed.

(** X3: with the coercion flag on, a textual cell comes out as text exactly
    when its stripped value does not match the numeric pattern, and then as
    that stripped value; when it matches, it comes out as a number or as
    missing. No text that matches the pattern is left. *)
Theorem clean_cell_coerce_kind (s : pystr) :
  (fullmatch_numeric (strip_quotes s) = false ->
   _clean_cell (Text s) true = Ok (Text (strip_quotes s)))
  /\ (fullmatch_numeric (strip_quotes s) = true ->
      _clean_cell (Text s) true = Ok Missing
      \/ exists q, _clean_cell (Text s) true = Ok (Num q))
  /\ (forall t, _clean_cell (Text s) true = Ok (Text t) ->
                fullmatch_numeric t = false).
Proof.
  split; [|split].
  - intros Hm. simpl. by rewrite Hm.
  - intros Hm. simpl. rewrite Hm, to_numeric_coerce_ok.
    destruct (parse_decimal _); eauto.
  - intros t [[Hm ->]|(_ & [=] & _)]%clean_cell_text_inv. exact Hm.
Qed.

(** X4: a textual cell whose stripped value holds a character that is no
    digit, period, comma or white space (a minus sign, an exponent, a unit)
    is kept as its stripped text under either flag; it is never coerced. *)
Theorem clean_cell_other_character (s : pystr) (flag : bool) (ch : N) :
  ch ∈ strip_quotes s -> in_numeric_class ch = false ->
  _clean_cell (Text s) flag = Ok (Text (strip_quotes s)).
Proof.
  intros Hin Hch.
  assert (Hm : fullmatch_numeric (strip_quotes s) = false).
  { apply not_true_is_false. intros [_ Hall]%fullmatch_numeric_spec.
    rewrite forallb_forall in Hall.
    apply list_elem_of_In, Hall in Hin. congruence. }
  simpl. by rewrite Hm.
Qed.

Lemma lstrip_nil chars s : lstrip chars s = [] -> forallb chars s = true.
Proof.
  induction s as [|ch s IH]; simpl; [done|].
  destruct (chars ch); [done|discriminate].
Qed.

Lemma read_digits_spec frac s : forall num scale count num' scale' count' rest,
  read_digits frac s num scale count = (num', scale', count', rest) ->
  exists d, s = d ++ rest /\ forallb is_digit d = true
            /\ ((0 <= num)%Z -> (0 <= num')%Z).
Proof.
  induction s as [|ch s IH]; intros num scale count num' scale' count' rest;
    simpl.
  - intros [= <- <- <- <-]. by exists [].
  - destruct (is_digit ch) eqn:Hd.
    + intros (d & -> & Hall & Hpos)%IH. exists (ch :: d). simpl.
      rewrite Hd, Hall. split; [done|]. split; [done|].
      intros Hnum. apply Hpos. unfold digit_value. lia.
    + intros [= <- <- <- <-]. by exists [].
Qed.

Lemma separators_app s t : separators (s ++ t) = separators s ++ separators t.
Proof. apply filter_app. Qed.

Lemma separators_none (P : N -> bool) s :
  (forall ch, P ch = true -> ch <> COMMA /\ ch <> PERIOD) ->
  forallb P s = true -> separators s = [].
Proof.
  intros HP. induction s as [|ch s IH]; simpl; [done|].
  intros [Hch Hs]%andb_prop. unfold separators.
  rewrite filter_cons_False; [by apply IH|].
  destruct (HP ch Hch). tauto.
Qed.

Lemma digit_no_separator ch :
  is_digit ch = true -> ch <> COMMA /\ ch <> PERIOD.
Proof.
  unfold is_digit, COMMA, PERIOD. intros [?%N.leb_le ?%N.leb_le]%andb_prop. lia.
Qed.

Lemma ascii_space_no_separator ch :
  is_ascii_space ch = true -> ch <> COMMA /\ ch <> PERIOD.
Proof.
  unfold is_ascii_space, SPACE, COMMA, PERIOD.
  intros [?%N.eqb_eq|[?%N.leb_le ?%N.leb_le]%andb_prop]%orb_prop; lia.
Qed.

(** What parses as a decimal holds no comma and one period at most, and its
    value is not negative. *)
Lemma parse_decimal_inv w q :
  parse_decimal w = Some q ->
  (0 <= q)%Q /\ (separators w = [] \/ separators w = [PERIOD]).
Proof.
  unfold parse_decimal.
  destruct (lstrip_decomp is_ascii_space w) as (p & Hw & Hp).
  destruct (read_digits false (lstrip is_ascii_space w) 0 1 0)
    as [[[n1 sc1] c1] s1] eqn:E1.
  apply read_digits_spec in E1 as (d1 & Hs0 & Hd1 & Hn1).
  set (r := match s1 with
            | ch :: rest =>
                if ch =? PERIOD then read_digits true rest n1 1 c1
                else (n1, 1%positive, c1, s1)
            | [] => (n1, 1%positive, c1, s1)
            end).
  assert (Hr : exists n2 sc c2 s2 mid d2,
             r = (n2, sc, c2, s2) /\ s1 = mid ++ d2 ++ s2
             /\ (mid = [] \/ mid = [PERIOD])
             /\ forallb is_digit d2 = true /\ (0 <= n2)%Z).
  { assert (Hn1' : (0 <= n1)%Z) by (apply Hn1; lia).
    unfold r. destruct s1 as [|ch rest].
    - exists n1, 1%positive, c1, [], [], []. split_and!; auto.
    - destruct (ch =? PERIOD) eqn:Hch.
      + apply N.eqb_eq in Hch as ->.
        destruct (read_digits true rest n1 1 c1) as [[[n2 sc] c2] s2] eqn:E2.
        apply read_digits_spec in E2 as (d2 & -> & Hd2 & Hn2).
        exists n2, sc, c2, s2, [PERIOD], d2. split_and!; auto.
      + exists n1, 1%positive, c1, (ch :: rest), [], [].
        split_and!; auto. }
  destruct Hr as (n2 & sc & c2 & s2 & mid & d2 & -> & Hs1 & Hmid & Hd2 & Hn2).
  destruct c2 as [|c2]; [done|].
  destruct (lstrip is_ascii_space s2) eqn:Ht; [|done].
  intros [= <-]. split; [unfold Qle; simpl; lia|].
  apply lstrip_nil in Ht.
  rewrite Hw, Hs0, Hs1, !separators_app.
  rewrite (separators_none _ p ascii_space_no_separator Hp).
  rewrite (separators_none _ d1 digit_no_separator Hd1).
  rewrite (separators_none _ d2 digit_no_separator Hd2).
  rewrite (separators_none _ s2 ascii_space_no_separator Ht).
  simpl. rewrite app_nil_r. destruct Hmid as [-> | ->]; [by left|by right].
Qed.

Lemma separators_clean s :
  fullmatch_numeric (strip_quotes s) = true ->
  separators (remove_spaces (strip_quotes s)) = separators s.
Proof.
  intros Hm. rewrite (remove_spaces_strip_quotes s (fullmatch_no_quote _ Hm)).
  unfold separators. rewrite list_filter_filter.
  apply list_filter_iff. intros ch. unfold SPACE, QUOTE, COMMA, PERIOD.
  split; [tauto|]. intros [->| ->]; split; auto; split; discriminate.
Qed.

Lemma separators_commas_to_periods w :
  length (separators (commas_to_periods w)) = length (separators w).
Proof.
  unfold separators, commas_to_periods.
  induction w as [|ch w IH]; [done|]. rewrite fmap_cons, !filter_cons.
  destruct (ch =? COMMA) eqn:E.
  - apply N.eqb_eq in E as ->.
    rewrite !decide_True by auto. simpl. by rewrite IH.
  - apply N.eqb_neq in E. repeat case_decide; simpl; rewrite ?IH; tauto.
Qed.

(** X5: with the coercion flag on, a textual cell gives a number only if it
    holds one comma or period at most, and that number is not negative. A
    cell that matches the pattern and holds two separators or more (a
    thousands separator with a decimal one, as ["1.234,56"]) becomes
    missing. *)
Theorem clean_cell_number_separators (s : pystr) :
  (forall q, _clean_cell (Text s) true = Ok (Num q) ->
             (0 <= q)%Q /\ (length (separators s) <= 1)%nat)
  /\ (fullmatch_numeric (strip_quotes s) = true ->
      (2 <= length (separators s))%nat ->
      _clean_cell (Text s) true = Ok Missing).
Proof.
  assert (Hnum : forall q, _clean_cell (Text s) true = Ok (Num q) ->
                   (0 <= q)%Q /\ (length (separators s) <= 1)%nat).
  { intros q. simpl. destruct (fullmatch_numeric (strip_quotes s)) eqn:Hm; [|done].
    rewrite to_numeric_coerce_ok, <- (separators_clean s Hm).
    destruct (contains COMMA _ && negb (contains PERIOD _)).
    - destruct (parse_decimal _) as [q'|] eqn:E; [|done]. intros [= <-].
      apply parse_decimal_inv in E as [Hq Hs]. split; [done|].
      rewrite <- separators_commas_to_periods.
      destruct Hs as [-> | ->]; simpl; lia.
    - destruct (parse_decimal _) as [q'|] eqn:E; [|done]. intros [= <-].
      apply parse_decimal_inv in E as [Hq Hs]. split; [done|].
      destruct Hs as [-> | ->]; simpl; lia. }
  split; [exact Hnum|]. intros Hm Hsep.
  destruct (_clean_cell (Text s) true) as [[|q|t]|e] eqn:E.
  - done.
  - destruct (Hnum q eq_refl) as [_ ?]. lia.
  - apply clean_cell_text_inv in E as [[? _]|(_ & ? & _)]; congruence.
  - destruct (clean_cell_total (Text s) true) as [c Hc]. congruence.
Qed.

Lemma lstrip_fmap (f : N -> N) chars s :
  (forall ch, chars (f ch) = chars ch) ->
  lstrip chars (f <$> s) = f <$> lstrip chars s.
Proof.
  intros Hf. induction s as [|ch s IH]; [done|].
  rewrite fmap_cons. simpl. rewrite Hf. by destruct (chars ch).
Qed.

Lemma rev_fmap (f : N -> N) s : rev (f <$> s) = f <$> rev s.
Proof.
  induction s as [|ch s IH]; [done|].
  rewrite fmap_cons. simpl. by rewrite IH, fmap_app.
Qed.

Lemma strip_fmap (f : N -> N) chars s :
  (forall ch, chars (f ch) = chars ch) ->
  strip chars (f <$> s) = f <$> strip chars s.
Proof.
  intros Hf. unfold strip, rstrip.
  by rewrite (lstrip_fmap f chars s Hf), rev_fmap, (lstrip_fmap f chars _ Hf),
    rev_fmap.
Qed.

Lemma comma_to_period_strip_set ch :
  in_strip_set (if ch =? COMMA then PERIOD else ch) = in_strip_set ch.
Proof. destruct (ch =? COMMA) eqn:E; [|done]. by apply N.eqb_eq in E as ->. Qed.

Lemma comma_to_period_class ch :
  in_numeric_class (if ch =? COMMA then PERIOD else ch) = in_numeric_class ch.
Proof. destruct (ch =? COMMA) eqn:E; [|done]. by apply N.eqb_eq in E as ->. Qed.

Lemma fullmatch_commas_to_periods v :
  fullmatch_numeric (commas_to_periods v) = fullmatch_numeric v.
Proof.
  assert (Hall : forall l, forallb in_numeric_class (commas_to_periods l)
                          = forallb in_numeric_class l).
  { unfold commas_to_periods. induction l as [|c l IH]; [done|].
    rewrite fmap_cons. simpl. by rewrite comma_to_period_class, IH. }
  unfold fullmatch_numeric. destruct v as [|ch v]; [done|].
  rewrite <- (Hall (ch :: v)). unfold commas_to_periods. by rewrite fmap_cons.
Qed.

Lemma remove_spaces_commas_to_periods v :
  remove_spaces (commas_to_periods v) = commas_to_periods (remove_spaces v).
Proof.
  unfold remove_spaces, commas_to_periods.
  induction v as [|ch v IH]; [done|]. rewrite fmap_cons, !filter_cons.
  destruct (ch =? COMMA) eqn:E.
  - apply N.eqb_eq in E as ->. rewrite !decide_True by done.
    by rewrite fmap_cons, IH.
  - case_decide; [by rewrite fmap_cons, E, IH|done].
Qed.

Lemma commas_to_periods_id w : COMMA ∉ w -> commas_to_periods w = w.
Proof.
  unfold commas_to_periods. induction w as [|ch w IH]; [done|].
  intros [Hne Hw]%not_elem_of_cons. rewrite fmap_cons, IH by done.
  destruct (ch =? COMMA) eqn:E; [|done]. by apply N.eqb_eq in E as ->.
Qed.

(** X6: a decimal comma is read as a decimal point. With the coercion flag
    on, a cell that matches the pattern and holds no period gives the same
    result as the cell with every comma written as a period. *)
Theorem clean_cell_decimal_comma (s : pystr) :
  fullmatch_numeric (strip_quotes s) = true ->
  (PERIOD ∉ s) ->
  _clean_cell (Text (commas_to_periods s)) true = _clean_cell (Text s) true.
Proof.
  intros Hm Hp. simpl. unfold strip_quotes in *.
  change (commas_to_periods s)
    with ((fun ch => if ch =? COMMA then PERIOD else ch) <$> s).
  rewrite (strip_fmap _ in_strip_set s comma_to_period_strip_set).
  fold (commas_to_periods (strip in_strip_set s)).
  rewrite fullmatch_commas_to_periods, Hm, remove_spaces_commas_to_periods.
  set (w := remove_spaces (strip in_strip_set s)).
  assert (Hpw : contains PERIOD w = false).
  { apply not_true_is_false. rewrite contains_spec.
    intros Hin. apply Hp. unfold w, remove_spaces in Hin.
    apply list_elem_of_filter in Hin as [_ Hin].
    destruct (strip_decomp in_strip_set s) as (p & q & Hs & _).
    rewrite Hs, !elem_of_app. tauto. }
  rewrite Hpw, (commas_to_periods_no_comma w). simpl. rewrite andb_true_r.
  destruct (contains COMMA w) eqn:Hc; [done|].
  rewrite commas_to_periods_id; [done|].
  rewrite <- contains_spec. by rewrite Hc.
Qed.

(** ** The header phase, further *)

Lemma occurrences_app c l k :
  occurrences c (l ++ k) = (occurrences c l + occurrences c k)%nat.
Proof. unfold occurrences. by rewrite filter_app, length_app. Qed.

Lemma occurrences_take_le c (l : list pystr) n m :
  (n <= m)%nat -> (occurrences c (take n l) <= occurrences c (take m l))%nat.
Proof.
  intros Hnm. replace m with (n + (m - n))%nat by lia.
  rewrite <- take_take_drop, occurrences_app. lia.
Qed.

(** The occurrences before a position are fewer than those up to it. *)
Lemma occurrences_take_lt c (l : list pystr) i j :
  l !! i = Some c -> (i < j)%nat ->
  (occurrences c (take i l) < occurrences c (take j l))%nat.
Proof.
  intros Hi Hij.
  pose proof (occurrences_take_le c l (S i) j Hij) as Hle.
  rewrite (take_S_r _ _ _ Hi), occurrences_snoc in Hle.
  rewrite decide_True in Hle by done. lia.
Qed.

Lemma occurrences_take_total c (l : list pystr) i :
  l !! i = Some c -> (occurrences c (take i l) < occurrences c l)%nat.
Proof.
  intros Hi. pose proof (lookup_lt_Some _ _ _ Hi) as Hlt.
  pose proof (occurrences_take_lt c l i (length l) Hi Hlt) as H.
  rewrite (take_ge l (length l)) in H by lia. exact H.
Qed.

(** The occurrence of [c] that has [k] earlier ones, when there are more
    than [k]. *)
Lemma occurrences_find c (l : list pystr) k :
  (k < occurrences c l)%nat ->
  exists j, l !! j = Some c /\ occurrences c (take j l) = k.
Proof.
  induction l as [|x l IH] using rev_ind; [unfold occurrences; simpl; lia|].
  rewrite occurrences_snoc. intros Hk.
  destruct (decide (k < occurrences c l)%nat) as [Hlt|Hge].
  - destruct (IH Hlt) as (j & Hj & Hocc).
    pose proof (lookup_lt_Some _ _ _ Hj) as Hjl.
    exists j. split; [by rewrite lookup_app_l|].
    by rewrite take_app_le by lia.
  - case_decide as Hx; [|lia]. subst x. exists (length l). split.
    + by rewrite list_lookup_middle.
    + rewrite take_app_length. lia.
Qed.

Lemma occurrences_elem_of c (l : list pystr) :
  c ∈ l -> (0 < occurrences c l)%nat.
Proof.
  intros Hin. destruct (occurrences c l) eqn:E; [|lia].
  unfold occurrences in E. apply nil_length_inv in E.
  by apply (filter_nil_not_elem_of _ _ c) in E.
Qed.

Lemma app_cons_unique (u : N) (a b x y : pystr) :
  u ∉ x -> u ∉ y -> a ++ u :: x = b ++ u :: y -> a = b /\ x = y.
Proof.
  intros Hx Hy. revert b. induction a as [|h a IH]; intros [|h' b]; simpl.
  - by intros [= ->].
  - intros [= <- ->]. exfalso. apply Hx. rewrite elem_of_app, elem_of_cons. auto.
  - intros [= -> <-]. exfalso. apply Hy. rewrite elem_of_app, elem_of_cons. auto.
  - intros [= -> H]. destruct (IH b H) as [-> ->]. done.
Qed.

Lemma uint_chars_inj d d' : uint_chars d = uint_chars d' -> d = d'.
Proof.
  revert d'. induction d; intros []; simpl; try done;
    intros [= H]; f_equal; auto.
Qed.

Lemma str_of_nat_inj k k' : str_of_nat k = str_of_nat k' -> k = k'.
Proof.
  intros H%uint_chars_inj. by apply DecimalNat.Unsigned.to_uint_inj.
Qed.

Lemma str_of_nat_no_underscore k : UNDERSCORE ∉ str_of_nat k.
Proof.
  intros Hin. pose proof (uint_chars_digits (Nat.to_uint k)) as Hd.
  rewrite Forall_forall in Hd. apply Hd in Hin. done.
Qed.

(** A base name and a count are read back from the name made of them. *)
Lemma suffixed_inj c k c' k' :
  suffixed c k = suffixed c' k' -> c = c' /\ k = k'.
Proof.
  unfold suffixed.
  intros [-> Hk]%app_cons_unique; try apply str_of_nat_no_underscore.
  split; [done|]. by apply str_of_nat_inj.
Qed.

Lemma suffixed_neq c k : suffixed c k <> c.
Proof.
  unfold suffixed. intros H. apply (f_equal length) in H.
  rewrite length_app in H. simpl in H. lia.
Qed.

(** X7: the cleaned column names are pairwise distinct exactly when no
    stripped name of the table is itself a name that the renaming gives
    out, that is the name made of a stripped name c and a count k with
    k from 1 up to the number of repeats of c. *)
Theorem clean_headers_distinct_iff (columns : list pystr) :
  let bases := strip_quotes <$> columns in
  NoDup (clean_headers columns) <->
  forall c k, (1 <= k < occurrences c bases)%nat -> suffixed c k ∉ bases.
Proof.
  intros bases. split.
  - intros Hnd c k [Hk1 Hk2] Hin.
    destruct (occurrences_find c bases k Hk2) as (j & Hj & Hjk).
    destruct (occurrences_find (suffixed c k) bases 0) as (i & Hi & Hi0);
      [by apply occurrences_elem_of|].
    pose proof (clean_headers_lookup columns j c Hj) as Houtj.
    pose proof (clean_headers_lookup columns i _ Hi) as Houti.
    fold bases in Houtj, Houti. rewrite Hjk in Houtj. rewrite Hi0 in Houti.
    destruct k as [|k]; [lia|]. simpl in Houtj, Houti.
    pose proof (NoDup_lookup _ _ _ _ Hnd Houti Houtj) as ->.
    rewrite Hj in Hi. injection Hi as Hi. symmetry in Hi.
    by apply suffixed_neq in Hi.
  - intros Hfree. apply NoDup_alt. intros i j x Hi Hj.
    assert (Hb : forall n, is_Some (clean_headers columns !! n) ->
                           exists c, bases !! n = Some c).
    { intros n Hn. apply lookup_lt_is_Some in Hn.
      rewrite clean_headers_length in Hn.
      apply lookup_lt_is_Some. unfold bases. by rewrite length_fmap. }
    destruct (Hb i) as [ci Hci]; [by eexists|].
    destruct (Hb j) as [cj Hcj]; [by eexists|].
    rewrite (clean_headers_lookup columns i ci Hci) in Hi.
    rewrite (clean_headers_lookup columns j cj Hcj) in Hj.
    fold bases in Hi, Hj. injection Hi as Hi. injection Hj as Hj.
    pose proof (occurrences_take_total _ _ _ Hci) as Hti.
    pose proof (occurrences_take_total _ _ _ Hcj) as Htj.
    destruct (occurrences ci (take i bases)) as [|ki] eqn:Eki,
             (occurrences cj (take j bases)) as [|kj] eqn:Ekj;
      simpl in Hi, Hj.
    + assert (Heq : cj = ci) by congruence. rewrite Heq in Hcj, Ekj.
      destruct (Nat.lt_trichotomy i j) as [Hlt|[->|Hlt]]; [|done|].
      * pose proof (occurrences_take_lt _ _ _ _ Hci Hlt). lia.
      * pose proof (occurrences_take_lt _ _ _ _ Hcj Hlt). lia.
    + exfalso. apply (Hfree cj (S kj)); [lia|].
      rewrite Hj, <- Hi. by eapply list_elem_of_lookup_2.
    + exfalso. apply (Hfree ci (S ki)); [lia|].
      rewrite Hi, <- Hj. by eapply list_elem_of_lookup_2.
    + assert (Heq : suffixed cj (S kj) = suffixed ci (S ki)) by congruence.
      apply suffixed_inj in Heq as [Hc [= Hk]]. rewrite Hc in Hcj, Ekj.
      destruct (Nat.lt_trichotomy i j) as [Hlt|[->|Hlt]]; [|done|].
      * pose proof (occurrences_take_lt _ _ _ _ Hci Hlt). lia.
      * pose proof (occurrences_take_lt _ _ _ _ Hcj Hlt). lia.
Qed.

(** X8: every cleaned column name is a stripped one, the renamed ones
    included: none begins or ends with a space or a single quote. *)
Theorem clean_headers_names_stripped (columns : list pystr) (name : pystr) :
  name ∈ clean_headers columns ->
  strip_quotes name = name
  /\ forall ch, head name = Some ch \/ last name = Some ch ->
                ch <> SPACE /\ ch <> QUOTE.
Proof.
  intros (i & Hi)%list_elem_of_lookup.
  assert (Hs : strip_quotes name = name).
  { pose proof (clean_headers_stripped columns) as H.
    apply (f_equal (fun l => l !! i)) in H.
    rewrite list_lookup_fmap, Hi in H. simpl in H. by injection H. }
  split; [done|]. intros ch Hch.
  pose proof (strip_quotes_ends name Hs ch Hch) as Hn.
  unfold in_strip_set in Hn.
  apply orb_false_elim in Hn as [?%N.eqb_neq ?%N.eqb_neq]. done.
Qed.

(** X9: names that are pairwise distinct once stripped are only stripped:
    no count is appended, and the cleaned names are pairwise distinct. *)
Theorem clean_headers_distinct_bases (columns : list pystr) :
  NoDup (strip_quotes <$> columns) ->
  clean_headers columns = strip_quotes <$> columns
  /\ NoDup (clean_headers columns).
Proof.
  intros Hnd. pose proof (clean_headers_NoDup columns Hnd) as H.
  split; [done|]. by rewrite H.
Qed.

(** ** The type normalizer *)

Lemma astype_string_idem v : astype_string (astype_string v) = astype_string v.
Proof. by destruct v. Qed.

(** X10: the type normalizer is idempotent, whatever [str] prints. *)
Theorem ConvertirObjectAString_idempotent (X : table) :
  ConvertirObjectAString_transform (ConvertirObjectAString_transform X)
  = ConvertirObjectAString_transform X.
Proof.
  unfold ConvertirObjectAString_transform. rewrite <- list_fmap_compose.
  apply list_fmap_ext. intros i col _. simpl.
  destruct (is_object_or_string (col_dtype col)) eqn:E; simpl; [|by rewrite E].
  f_equal. rewrite <- list_fmap_compose. apply list_fmap_ext.
  intros j v _. apply astype_string_idem.
Qed.


(** ** The cell phase on a table *)

Lemma set_names_lookup cols (X : table) i col :
  length cols = length X -> X !! i = Some col ->
  exists c, cols !! i = Some c
            /\ set_names cols X !! i
               = Some (Column c (col_dtype col) (col_cells col)).
Proof.
  intros Hlen Hi. unfold set_names.
  destruct (lookup_lt_is_Some_2 cols i) as [c Hc].
  { rewrite Hlen. by eapply lookup_lt_Some. }
  exists c. split; [done|]. by rewrite lookup_zip_with, Hc, Hi.
Qed.

(** Column by column, what [LimpiarComillas.transform] returns. *)
Lemma LimpiarComillas_transform_lookup self X X1 i col :
  LimpiarComillas_transform self X = Ok X1 -> X !! i = Some col ->
  exists col1,
    X1 !! i = Some col1
    /\ clean_headers (names X) !! i = Some (col_name col1)
    /\ ((is_object_or_string (col_dtype col) = false
         /\ col_dtype col1 = col_dtype col /\ col_cells col1 = col_cells col)
        \/ (is_object_or_string (col_dtype col) = true
            /\ col_dtype col1 = infer_dtype (col_cells col1)
            /\ Forall2 (fun v c => _clean_cell v (cast_numeric self) = Ok c)
                 (col_cells col) (col_cells col1))).
Proof.
  unfold LimpiarComillas_transform. intros H%mapM_Forall2 Hi.
  destruct (set_names_lookup (clean_headers (names X)) X i col)
    as (c & Hc & Hset); [|done|].
  { rewrite clean_headers_length. unfold names. by rewrite length_fmap. }
  destruct (Forall2_lookup_l _ _ _ _ _ H Hset) as (col1 & Hcol1 & Hclean).
  exists col1. split; [done|].
  apply clean_column_inv in Hclean as [[Hd ->]|(Hd & cells & Hcells & ->)];
    simpl in *.
  - split; [done|]. by left.
  - split; [done|]. right. split; [done|]. split; [done|].
    by apply mapM_Forall2.
Qed.

(** X12: [LimpiarComillas.transform] keeps the shape of the table, with as
    many columns and as many cells in each; it returns a column that is
    neither of kind object nor of kind string with its kind and its cells
    unchanged, and in any column it leaves a missing value and a number
    where they are. *)
Theorem LimpiarComillas_transform_keeps (self : LimpiarComillas)
    (X X1 : table) :
  LimpiarComillas_transform self X = Ok X1 ->
  length X1 = length X
  /\ forall i col,
       X !! i = Some col ->
       exists col1,
         X1 !! i = Some col1
         /\ length (col_cells col1) = length (col_cells col)
         /\ (is_object_or_string (col_dtype col) = false ->
             col_dtype col1 = col_dtype col
             /\ col_cells col1 = col_cells col)
         /\ forall j v, col_cells col !! j = Some v ->
                        (forall t, v <> Text t) ->
                        col_cells col1 !! j = Some v.
Proof.
  intros H. split.
  - pose proof (f_equal length (LimpiarComillas_transform_names _ _ _ H)) as Hl.
    rewrite clean_headers_length in Hl. unfold names in Hl.
    by rewrite !length_fmap in Hl.
  - intros i col Hi.
    destruct (LimpiarComillas_transform_lookup _ _ _ _ _ H Hi)
      as (col1 & Hcol1 & _ & [(Hd & Hdt & Hcells)|(Hd & _ & Hcells)]);
      exists col1; (split; [done|]).
    + rewrite Hcells. split_and!; auto.
    + split; [symmetry; by eapply Forall2_length|]. split; [congruence|].
      intros j v Hj Hv.
      destruct (Forall2_lookup_l _ _ _ _ _ Hcells Hj) as (c & Hc & Hclean).
      destruct v as [|q|t]; simpl in Hclean; [congruence..|].
      by destruct (Hv t).
Qed.

(** X13: [LimpiarComillas.transform] alone is idempotent, under either
    flag, on the tables to which it gives pairwise distinct names. *)
Theorem LimpiarComillas_transform_idempotent (self : LimpiarComillas)
    (X X1 : table) :
  LimpiarComillas_transform self X = Ok X1 ->
  NoDup (names X1) ->
  LimpiarComillas_transform self X1 = Ok X1.
Proof.
  intros H Hnd. pose proof (LimpiarComillas_transform_names _ _ _ H) as Hn.
  unfold LimpiarComillas_transform.
  assert (Hid : clean_headers (names X1) = names X1).
  { rewrite Hn. apply clean_headers_idem. by rewrite <- Hn. }
  rewrite Hid, set_names_id. apply mapM_id. intros col Hin.
  unfold LimpiarComillas_transform in H. apply mapM_Forall2 in H.
  apply list_elem_of_lookup in Hin as (i & Hi).
  destruct (Forall2_lookup_r _ _ _ _ _ H Hi) as (col0 & _ & Hc0).
  apply clean_column_inv in Hc0 as [[Hd ->]|(_ & cells & Hcells & ->)].
  - unfold clean_column. by rewrite Hd.
  - unfold clean_column. simpl.
    destruct (is_object_or_string (infer_dtype cells)); [|done].
    rewrite (mapM_id _ cells); [done|]. intros c Hc.
    apply mapM_Forall2 in Hcells.
    apply list_elem_of_lookup in Hc as (j & Hj).
    destruct (Forall2_lookup_r _ _ _ _ _ Hcells Hj) as (v & _ & Hv).
    by apply clean_cell_idem in Hv.
Qed.

(** X14: in a table cleaned by [pipeline_red], a text found in a column
    that was of kind object or string is a stripped text that does not
    match the numeric pattern: what matched was coerced. *)
Theorem pipeline_red_texts (X X1 : table) (i j : nat) (col col1 : column)
    (t : pystr) :
  pipeline_red X = Ok X1 ->
  X !! i = Some col -> is_object_or_string (col_dtype col) = true ->
  X1 !! i = Some col1 -> col_cells col1 !! j = Some (Text t) ->
  strip_quotes t = t /\ fullmatch_numeric t = false.
Proof.
  unfold pipeline_red. intros H Hi Hd Hi1 Hj.
  assert (Hi' : ConvertirObjectAString_transform X !! i
                = Some (Column (col_name col) DString
                          (astype_string <$> col_cells col))).
  { unfold ConvertirObjectAString_transform.
    by rewrite list_lookup_fmap, Hi; simpl; rewrite Hd. }
  destruct (LimpiarComillas_transform_lookup _ _ _ _ _ H Hi')
    as (col1' & Hcol1 & _ & [(Hd' & _)|(_ & _ & Hcells)]); [done|].
  rewrite Hi1 in Hcol1. injection Hcol1 as <-. simpl in Hcells.
  destruct (Forall2_lookup_r _ _ _ _ _ Hcells Hj) as (v & _ & Hv).
  destruct v as [|q|s]; simpl in Hv; [done..|].
  fold (_clean_cell (Text s) true) in Hv.
  apply clean_cell_text_inv in Hv as [[Hm ->]|(_ & [=] & _)].
  split; [apply strip_idem|exact Hm].
Qed.

(** ** The columns of the complete pipeline *)

Lemma get_column_missing (X : table) name :
  name ∉ names X -> get_column X name = Raise KeyError.
Proof.
  intros Hn. unfold get_column.
  destruct (find _ X) as [col|] eqn:E; [|done].
  apply find_some in E as [Hin Heq]. apply bool_decide_eq_true in Heq.
  exfalso. apply Hn. unfold names. apply list_elem_of_fmap.
  exists col. split; [done|by apply list_elem_of_In].
Qed.

Lemma get_column_found (X : table) name :
  name ∈ names X -> exists vals, get_column X name = Ok vals.
Proof.
  unfold names. intros (col & -> & Hin)%list_elem_of_fmap. unfold get_column.
  destruct (find _ X) as [col'|] eqn:E; [by eexists|].
  apply list_elem_of_In in Hin.
  pose proof (find_none _ _ E col Hin) as Hf. simpl in Hf.
  by rewrite bool_decide_eq_false in Hf.
Qed.

Lemma select_columns_missing (X : table) cols name :
  name ∈ cols -> name ∉ names X -> select_columns X cols = Raise KeyError.
Proof.
  intros Hin Hn. unfold select_columns.
  induction cols as [|c cols IH]; [by apply elem_of_nil in Hin|]. simpl.
  destruct (get_column X c) as [vals|e] eqn:E; simpl.
  - apply elem_of_cons in Hin as [->|Hin].
    + by rewrite get_column_missing in E.
    + by rewrite IH.
  - by apply get_column_raise in E as ->.
Qed.

Lemma select_columns_found (X : table) cols :
  (forall name, name ∈ cols -> name ∈ names X) ->
  exists out, select_columns X cols = Ok out.
Proof.
  intros H. apply mapM_total. intros name Hin. by apply get_column_found, H.
Qed.

Lemma bind_raise_second {A B} (r : result A) (k : A -> result B) :
  (forall a, exists e, k a = Raise e) -> exists e, bind r k = Raise e.
Proof. intros H. destruct r as [a|e]; simpl; eauto. Qed.

(** X15: a pipeline that names a column absent from the cleaned names of a
    table cannot be fitted on that table: fitting raises. So it is for the
    pipeline built from a raw table whose names the cleaning changes. *)
Theorem pipeline_unknown_column_raises (X0 X : table) (name : pystr) :
  let p := crear_pipeline_completo X0 in
  name ∈ num_columns (prepro p) ++ cat_columns (prepro p) ->
  name ∉ clean_headers (names X) ->
  exists e, Pipeline_fit p X = Raise e.
Proof.
  intros p Hin Hn. destruct (pipeline_red_total X) as [Xc HXc].
  pose proof (pipeline_red_names _ _ HXc) as Hnames. rewrite <- Hnames in Hn.
  unfold Pipeline_fit, Pipeline_fit_transform.
  change (limpieza p) with pipeline_red. rewrite HXc. cbn [bind].
  unfold ColumnTransformer_fit_transform. revert Hin.
  generalize (prepro p). intros self Hin.
  match goal with
  | |- exists e, bind ?r _ = Raise e =>
      assert (Hinner : exists e, r = Raise e);
        [|destruct Hinner as [e ->]; cbn [bind]; eauto]
  end.
  apply elem_of_app in Hin as [Hin|Hin].
  - destruct (num_columns self) as [|n ns] eqn:E; [by apply elem_of_nil in Hin|].
    rewrite (select_columns_missing Xc (n :: ns) name Hin Hn). cbn [bind]. eauto.
  - apply bind_raise_second. intros num.
    destruct (cat_columns self) as [|c cs] eqn:E; [by apply elem_of_nil in Hin|].
    rewrite (select_columns_missing Xc (c :: cs) name Hin Hn). cbn [bind]. eauto.
Qed.

(** X16: the pipeline built from a table finds each of its columns in that
    table, and finds them again in the table cleaned once more when the
    names are left alone by the header phase, as the pairwise distinct
    names of a cleaned table are. *)
Theorem pipeline_columns_found (X0 : table) :
  let p := crear_pipeline_completo X0 in
  ((exists cols, select_columns X0 (num_columns (prepro p)) = Ok cols)
   /\ exists cols, select_columns X0 (cat_columns (prepro p)) = Ok cols)
  /\ (clean_headers (names X0) = names X0 ->
      forall Xc, pipeline_red X0 = Ok Xc ->
        (exists cols, select_columns Xc (num_columns (prepro p)) = Ok cols)
        /\ exists cols, select_columns Xc (cat_columns (prepro p)) = Ok cols).
Proof.
  intros p.
  assert (Hsub : forall name,
            name ∈ num_columns (prepro p) \/ name ∈ cat_columns (prepro p) ->
            name ∈ names X0).
  { intros name. simpl. unfold names. rewrite !list_elem_of_fmap.
    intros [(col & -> & [_ Hin]%list_elem_of_filter)
           |(col & -> & [_ Hin]%list_elem_of_filter)]; eauto. }
  split.
  - split; apply select_columns_found; auto.
  - intros Hid Xc HXc. pose proof (pipeline_red_names _ _ HXc) as Hn.
    rewrite Hid in Hn.
    split; apply select_columns_found; intros name Hin; rewrite Hn; auto.
Qed.


(** X18: when the table given to [crear_pipeline_completo] has pairwise
    distinct names, no column name is handed to both branches or twice to
    one, and a column of another kind than number, object or string is
    handed to neither. *)
Theorem crear_pipeline_completo_columns (X0 : table) :
  let p := crear_pipeline_completo X0 in
  NoDup (names X0) ->
  NoDup (num_columns (prepro p) ++ cat_columns (prepro p))
  /\ forall col, col ∈ X0 -> col_dtype col = DOther ->
                 col_name col ∉ num_columns (prepro p) ++ cat_columns (prepro p).
Proof.
  intros p Hnd. simpl.
  assert (Hin : forall (P : column -> bool) name,
            name ∈ names (filter (fun col => P col) X0) ->
            exists col, col ∈ X0 /\ col_name col = name /\ P col = true).
  { intros P name (col & -> & [HP Hc]%list_elem_of_filter)%list_elem_of_fmap.
    exists col. split_and!; auto. by destruct (P col). }
  assert (Hinj : forall c1 c2, c1 ∈ X0 -> c2 ∈ X0 ->
                   col_name c1 = col_name c2 -> c1 = c2).
  { intros c1 c2 (i & Hi)%list_elem_of_lookup (j & Hj)%list_elem_of_lookup Heq.
    assert (i = j) as ->; [|congruence].
    eapply (NoDup_lookup (names X0)); [done| |]; unfold names;
      rewrite list_lookup_fmap; [by rewrite Hi|by rewrite Hj, Heq]. }
  assert (Hsub : forall (P : column -> bool),
            NoDup (names (filter (fun col => P col) X0))).
  { intros P. unfold names. apply NoDup_fmap_2_strong.
    - intros c1 c2 [_ H1]%list_elem_of_filter [_ H2]%list_elem_of_filter.
      by apply Hinj.
    - apply NoDup_filter. by apply NoDup_fmap_1 in Hnd. }
  split.
  - apply NoDup_app. split; [apply Hsub|]. split; [|apply Hsub].
    intros name (c1 & H1 & Hn1 & Hp1)%Hin (c2 & H2 & Hn2 & Hp2)%Hin.
    assert (c1 = c2) as -> by (apply Hinj; congruence).
    by destruct (col_dtype c2).
  - intros col Hcol Hd [Hx|Hx]%elem_of_app;
      apply Hin in Hx as (c & Hc & Hn & Hp);
      assert (c = col) as -> by (by apply Hinj);
      by rewrite Hd in Hp.
Qed.

(** ** The two flags in sequence *)

(** X19: coercion can be put off: cleaning a cell with the flag off and the
    result with the flag on, or the other way round, gives what cleaning it
    once with the flag on gives. *)
Theorem clean_cell_flags_compose (val : cell) :
  (c <- _clean_cell val false ;; _clean_cell c true) = _clean_cell val true
  /\ (c <- _clean_cell val true ;; _clean_cell c false) = _clean_cell val true.
Proof.
  destruct val as [|q|s]; [done..|].
  pose proof (strip_idem in_strip_set s) as Hid.
  fold (strip_quotes s) in Hid. fold (strip_quotes (strip_quotes s)) in Hid.
  split.
  - simpl. destruct (fullmatch_numeric (strip_quotes s)) eqn:Hm; simpl.
    + rewrite (strip_quotes_remove_spaces _ Hid).
      rewrite (fullmatch_remove_spaces _ Hid Hm).
      by rewrite remove_spaces_idem.
    + by rewrite Hid, Hm.
  - destruct (clean_cell_total (Text s) true) as [c Hc]. rewrite Hc.
    cbn [bind]. destruct c as [|q|t]; [done..|].
    apply clean_cell_text_inv in Hc as [[Hm ->]|(_ & [=] & _)].
    simpl. by rewrite Hid, Hm.
Qed.

End Pipeline.

(** * Examples, counterexamples and instances *)

Import Instance.

#[local] Abbreviation clean :=
  (pipeline_red str_of_fraction infer_number_or_object).
#[local] Abbreviation crear :=
  (crear_pipeline_completo str_of_fraction infer_number_or_object).
#[local] Abbreviation fit :=
  (Pipeline_fit cell_order unit unit_scaler_learn unit_scaler_apply).
#[local] Abbreviation fit_transform :=
  (Pipeline_fit_transform cell_order unit unit_scaler_learn unit_scaler_apply).
#[local] Abbreviation transform :=
  (Pipeline_transform unit unit_scaler_apply).

Example clean_cell_hello :
  _clean_cell (Text (py "' hello '")) true = Ok (Text (py "hello"))
  /\ _clean_cell (Text (py "' hello '")) false = Ok (Text (py "hello")).
Proof. by vm_compute. Qed.

Example clean_cell_42 :
  _clean_cell (Text (py "' 42 '")) true = Ok (Num 42).
Proof. by vm_compute. Qed.

Example clean_mixed_table : clean mixed_table = Ok mixed_table_cleaned.
Proof. by vm_compute. Qed.

Example fit_transform_fit_table :
  fit_transform (crear fit_table) fit_table
  = Ok (Fitted unit (Some tt) (Some [[Text (py "a"); Text (py "b")]]) false,
        Dense 3 [[Some 1%Q; Some 2%Q; Some 3%Q];
                 [Some 1%Q; Some 0%Q; Some 1%Q];
                 [Some 0%Q; Some 1%Q; Some 0%Q]]).
Proof. by vm_compute. Qed.

(** ** The cell cleaner *)





(** A cell made of one tab: white space only, yet not stripped, so that it
    matches the pattern and comes out missing (flag on) or as itself (flag
    off), not as the empty string. *)
Lemma tab_only_cell_is_not_emptied :
  Forall (fun ch => ch = QUOTE \/ is_whitespace ch = true) [TAB]
  /\ _clean_cell (Text [TAB]) true = Ok Missing
  /\ _clean_cell (Text [TAB]) false = Ok (Text [TAB])
  /\ _clean_cell (Text [TAB]) true <> Ok (Text [])
  /\ _clean_cell (Text [TAB]) false <> Ok (Text []).
Proof.
  split; [repeat (constructor; [first [by left | by right]|]); constructor|].
  by vm_compute.
Qed.

Lemma clean_cell_quotes_and_spaces_witness :
  Forall (fun ch => ch = QUOTE \/ ch = SPACE) (py "' '")
  /\ _clean_cell (Text (py "' '")) true = Ok (Text []).
Proof.
  assert (H : Forall (fun ch => ch = QUOTE \/ ch = SPACE) (py "' '")).
  { repeat (constructor; [first [by left | by right]|]). constructor. }
  split; [exact H|].
  exact (proj2 (proj2 (clean_cell_quotes_and_spaces (py "' '") true H))).
Defined.

(** ** The header phase *)


(** C2: the names given to ["x", "x", "x_1"] are not pairwise distinct:
    the second ["x"] becomes ["x_1"], the name the third column already
    has and, being new to the loop, keeps. So it is for the table. *)
Theorem clean_headers_collision :
  clean_headers [py "x"; py "x"; py "x_1"] = [py "x"; py "x_1"; py "x_1"]
  /\ ~ NoDup (clean_headers [py "x"; py "x"; py "x_1"])
  /\ exists X1, clean numbers_x_x_x1 = Ok X1
                /\ names X1 = [py "x"; py "x_1"; py "x_1"]
                /\ ~ NoDup (names X1).
Proof.
  assert (Hdup : ~ NoDup [py "x"; py "x_1"; py "x_1"]).
  { intros H. apply NoDup_cons in H as [_ H].
    apply NoDup_cons in H as [H _]. apply H. by left. }
  split; [by vm_compute|]. split; [exact Hdup|].
  eexists. split; [by vm_compute|]. split; [by vm_compute|exact Hdup].
Qed.

(** ** Cleaning twice *)


(** The same, whatever [str] prints and whatever kind a rebuilt column
    gets: the columns are numeric, and only the header phase acts. *)
Lemma cleaning_twice_renames_again_any py_str infer_dtype :
  exists X1 X2,
    pipeline_red py_str infer_dtype numbers_x_x_x1 = Ok X1
    /\ pipeline_red py_str infer_dtype X1 = Ok X2
    /\ X2 <> X1.
Proof.
  do 2 eexists. split; [by vm_compute|]. split; [by vm_compute|].
  by vm_compute.
Qed.

(** Without the condition on [str], a number left in a textual column can
    come back as text: here [str] prints every number in exponent form. *)
Lemma cleaning_twice_needs_plain_numbers infer_dtype :
  let py_str := fun _ : Q => py "1e-05" in
  let X := [Column (py "k") DObject [Text (py "0,00001"); Text (py "a")]] in
  infer_dtype [Num (1 # 100000); Text (py "a")] = DObject ->
  exists X1 X2,
    pipeline_red py_str infer_dtype X = Ok X1
    /\ pipeline_red py_str infer_dtype X1 = Ok X2
    /\ NoDup (names X1)
    /\ X2 <> X1.
Proof.
  intros py_str X Hd.
  exists [Column (py "k") DObject [Num (1 # 100000); Text (py "a")]],
    [Column (py "k") (infer_dtype [Text (py "1e-05"); Text (py "a")])
       [Text (py "1e-05"); Text (py "a")]].
  split; [vm_compute in Hd |- *; by rewrite Hd|].
  split; [by vm_compute|].
  split; [|done]. repeat constructor. set_solver.
Qed.


(** ** The complete pipeline *)


Lemma pipeline_output_dense_witness :
  let f := Fitted unit (Some tt) (Some [[Text (py "a"); Text (py "b")]]) false in
  let m := Dense 3 [[Some 1%Q; Some 2%Q; Some 3%Q];
                    [Some 1%Q; Some 0%Q; Some 1%Q];
                    [Some 0%Q; Some 1%Q; Some 0%Q]] in
  fit_transform (crear fit_table) fit_table = Ok (f, m)
  /\ sparse_output_ unit f = false.
Proof.
  intros f m.
  assert (H : fit_transform (crear fit_table) fit_table = Ok (f, m))
    by (by vm_compute).
  split; [exact H|].
  exact (proj1 (proj2 (pipeline_output_dense str_of_fraction
                         infer_number_or_object cell_order unit
                         unit_scaler_learn unit_scaler_apply
                         fit_table fit_table f m H))).
Defined.


(** The same for the table cleaned first, and whatever the library
    functions left open are. *)
Lemma fit_on_empty_table_raises_any py_str infer_dtype cell_leb
    (scaler_state : Type) scaler_learn scaler_apply :
  forall Xc,
    pipeline_red py_str infer_dtype empty_table = Ok Xc ->
    Pipeline_fit cell_leb scaler_state scaler_learn scaler_apply
      (crear_pipeline_completo py_str infer_dtype Xc) empty_table
    = Raise ValueError
    /\ Pipeline_fit cell_leb scaler_state scaler_learn scaler_apply
         (crear_pipeline_completo py_str infer_dtype Xc) Xc
       = Raise ValueError.
Proof.
  intros Xc H. vm_compute in H. injection H as <-.
  generalize (infer_dtype []). intros d. destruct d; by vm_compute.
Qed.


(** ** Instances of the further properties *)

Lemma clean_cell_text_is_stripped_witness :
  _clean_cell (Text (py " 'it's' ")) true = Ok (Text (py "it's"))
  /\ strip_quotes (py "it's") = py "it's".
Proof.
  assert (H : _clean_cell (Text (py " 'it's' ")) true = Ok (Text (py "it's")))
    by (by vm_compute).
  split; [exact H|].
  exact (proj1 (clean_cell_text_is_stripped _ _ _ H)).
Defined.

Lemma clean_cell_coerce_kind_witness :
  fullmatch_numeric (strip_quotes (py " 12 km ")) = false
  /\ _clean_cell (Text (py " 12 km ")) true = Ok (Text (py "12 km")).
Proof.
  split; [reflexivity|].
  exact (proj1 (clean_cell_coerce_kind (py " 12 km ")) eq_refl).
Defined.

Lemma clean_cell_other_character_witness :
  45 ∈ strip_quotes (py "'-5'") /\ in_numeric_class 45 = false
  /\ _clean_cell (Text (py "'-5'")) true = Ok (Text (py "-5")).
Proof.
  assert (H : 45 ∈ strip_quotes (py "'-5'")) by (by left).
  split; [exact H|]. split; [reflexivity|].
  exact (clean_cell_other_character (py "'-5'") true 45 H eq_refl).
Defined.

Lemma clean_cell_number_separators_witness :
  fullmatch_numeric (strip_quotes (py "1.234,56")) = true
  /\ (2 <= length (separators (py "1.234,56")))%nat
  /\ _clean_cell (Text (py "1.234,56")) true = Ok Missing.
Proof.
  assert (H : (2 <= length (separators (py "1.234,56")))%nat)
    by (vm_compute; lia).
  split; [reflexivity|]. split; [exact H|].
  exact (proj2 (clean_cell_number_separators (py "1.234,56")) eq_refl H).
Defined.

Lemma clean_cell_decimal_comma_witness :
  fullmatch_numeric (strip_quotes (py " 1 234,5 ")) = true
  /\ (PERIOD ∉ py " 1 234,5 ")
  /\ _clean_cell (Text (py " 1 234.5 ")) true
     = _clean_cell (Text (py " 1 234,5 ")) true.
Proof.
  assert (H : PERIOD ∉ py " 1 234,5 ").
  { apply (bool_decide_unpack _). by vm_compute. }
  split; [reflexivity|]. split; [exact H|].
  exact (clean_cell_decimal_comma (py " 1 234,5 ") eq_refl H).
Defined.

Lemma clean_headers_distinct_iff_witness :
  NoDup (clean_headers [py "a"; py " a"; py "b"])
  /\ (1 <= 1 < occurrences (py "a") (strip_quotes <$> [py "a"; py " a"; py "b"]))%nat
  /\ (suffixed (py "a") 1 ∉ strip_quotes <$> [py "a"; py " a"; py "b"]).
Proof.
  assert (Hnd : NoDup (clean_headers [py "a"; py " a"; py "b"])).
  { apply (bool_decide_unpack _). by vm_compute. }
  assert (Hk : (1 <= 1 < occurrences (py "a")
                             (strip_quotes <$> [py "a"; py " a"; py "b"]))%nat).
  { vm_compute. lia. }
  split; [exact Hnd|]. split; [exact Hk|].
  exact (proj1 (clean_headers_distinct_iff [py "a"; py " a"; py "b"]) Hnd
           (py "a") 1%nat Hk).
Defined.

Lemma clean_headers_names_stripped_witness :
  py "a_1" ∈ clean_headers [py "'a'"; py " a "]
  /\ strip_quotes (py "a_1") = py "a_1".
Proof.
  assert (H : py "a_1" ∈ clean_headers [py "'a'"; py " a "]).
  { apply (bool_decide_unpack _). by vm_compute. }
  split; [exact H|].
  exact (proj1 (clean_headers_names_stripped _ _ H)).
Defined.

Lemma clean_headers_distinct_bases_witness :
  NoDup (strip_quotes <$> [py "'a'"; py " b "])
  /\ clean_headers [py "'a'"; py " b "] = [py "a"; py "b"].
Proof.
  assert (H : NoDup (strip_quotes <$> [py "'a'"; py " b "])).
  { apply (bool_decide_unpack _). by vm_compute. }
  split; [exact H|].
  exact (proj1 (clean_headers_distinct_bases _ H)).
Defined.

#[local] Abbreviation normalize :=
  (ConvertirObjectAString_transform str_of_fraction).
#[local] Abbreviation strip_table :=
  (LimpiarComillas_transform infer_number_or_object LimpiarComillas_default).


Lemma LimpiarComillas_transform_keeps_witness :
  strip_table mixed_table = Ok mixed_table_cleaned
  /\ length mixed_table_cleaned = length mixed_table.
Proof.
  assert (H : strip_table mixed_table = Ok mixed_table_cleaned)
    by (by vm_compute).
  split; [exact H|].
  exact (proj1 (LimpiarComillas_transform_keeps infer_number_or_object
                  LimpiarComillas_default _ _ H)).
Defined.

Lemma LimpiarComillas_transform_idempotent_witness :
  strip_table mixed_table = Ok mixed_table_cleaned
  /\ NoDup (names mixed_table_cleaned)
  /\ strip_table mixed_table_cleaned = Ok mixed_table_cleaned.
Proof.
  assert (H : strip_table mixed_table = Ok mixed_table_cleaned)
    by (by vm_compute).
  assert (Hnd : NoDup (names mixed_table_cleaned)).
  { apply (bool_decide_unpack _). by vm_compute. }
  split; [exact H|]. split; [exact Hnd|].
  exact (LimpiarComillas_transform_idempotent infer_number_or_object
           LimpiarComillas_default _ _ H Hnd).
Defined.

Lemma pipeline_red_texts_witness :
  clean mixed_table = Ok mixed_table_cleaned
  /\ strip_quotes (py "hello") = py "hello"
  /\ fullmatch_numeric (py "hello") = false.
Proof.
  assert (H : clean mixed_table = Ok mixed_table_cleaned) by (by vm_compute).
  split; [exact H|].
  exact (pipeline_red_texts str_of_fraction infer_number_or_object
           mixed_table mixed_table_cleaned 0%nat 1%nat _ _ (py "hello")
           H eq_refl eq_refl eq_refl eq_refl).
Defined.

Lemma pipeline_unknown_column_raises_witness :
  py "'a'" ∈ num_columns (prepro (crear raw_table))
              ++ cat_columns (prepro (crear raw_table))
  /\ (py "'a'" ∉ clean_headers (names raw_table))
  /\ exists e, fit (crear raw_table) raw_table = Raise e.
Proof.
  assert (H1 : py "'a'" ∈ num_columns (prepro (crear raw_table))
                            ++ cat_columns (prepro (crear raw_table)))
    by (by left).
  assert (H2 : py "'a'" ∉ clean_headers (names raw_table)).
  { apply (bool_decide_unpack _). by vm_compute. }
  split; [exact H1|]. split; [exact H2|].
  exact (pipeline_unknown_column_raises str_of_fraction infer_number_or_object
           cell_order unit unit_scaler_learn unit_scaler_apply
           raw_table raw_table (py "'a'") H1 H2).
Defined.

Lemma pipeline_columns_found_witness :
  clean_headers (names mixed_table_cleaned) = names mixed_table_cleaned
  /\ clean mixed_table_cleaned = Ok mixed_table_cleaned
  /\ exists cols,
       select_columns mixed_table_cleaned
         (cat_columns (prepro (crear mixed_table_cleaned))) = Ok cols.
Proof.
  assert (H1 : clean_headers (names mixed_table_cleaned)
               = names mixed_table_cleaned) by (by vm_compute).
  assert (H2 : clean mixed_table_cleaned = Ok mixed_table_cleaned)
    by (by vm_compute).
  split; [exact H1|]. split; [exact H2|].
  exact (proj2 (proj2 (pipeline_columns_found str_of_fraction
                         infer_number_or_object mixed_table_cleaned)
                  H1 _ H2)).
Defined.


Lemma crear_pipeline_completo_columns_witness :
  NoDup (names other_kind_table)
  /\ NoDup (num_columns (prepro (crear other_kind_table))
            ++ cat_columns (prepro (crear other_kind_table)))
  /\ (py "d" ∉ num_columns (prepro (crear other_kind_table))
               ++ cat_columns (prepro (crear other_kind_table))).
Proof.
  assert (H : NoDup (names other_kind_table)).
  { apply (bool_decide_unpack _). by vm_compute. }
  split; [exact H|].
  destruct (crear_pipeline_completo_columns str_of_fraction
              infer_number_or_object other_kind_table H) as [Hnd Hother].
  split; [exact Hnd|].
  apply (Hother (Column (py "d") DOther [Missing])); [|reflexivity].
  right. right. left.
Defined.
